(** * str2func: a reverse index from string literals to C/C++ functions

    Shallow embedding of [qsrc_strdb.py] and the properties of its
    incremental indexing pipeline.

    The program keeps two pickled tables on disk: the reverse index
    [db] (literal digest -> set of function names) and the set [fdb] of
    digests of files already indexed.  The libclang parser, the xxHash
    digest, the pickle codec, the clock and the keyboard are external;
    they appear here as interfaces and as a [World] the program reads. *)

From Stdlib Require Import ZArith QArith String Ascii List.
From Stdlib.Strings Require Import Byte.
From stdpp Require Import base option list gmap sets strings.

Open Scope string_scope.
Open Scope list_scope.
Open Scope nat_scope.

(** ** Bytes *)

Abbreviation bytes := (list Byte.byte).

#[global] Instance byte_eq_dec : EqDecision Byte.byte.
Proof.
  intros a b. destruct (decide (Byte.to_N a = Byte.to_N b)) as [e|n].
  - left. apply (f_equal Byte.of_N) in e.
    rewrite !Byte.of_to_N in e. congruence.
  - right. congruence.
Defined.

#[global] Instance byte_countable : Countable Byte.byte :=
  inj_countable Byte.to_N Byte.of_N Byte.of_to_N.

(** ** The parser's output ([clang.cindex]) *)

Inductive TokenKind :=
  | PUNCTUATION | KEYWORD | IDENTIFIER | LITERAL | COMMENT.

(** Only [FUNCTION_DECL] is ever tested; every other cursor kind is
    carried by its libclang number. *)
Inductive CursorKind :=
  | FUNCTION_DECL
  | OTHER_CURSOR (id : N).

#[global] Instance TokenKind_eq_dec : EqDecision TokenKind.
Proof. solve_decision. Defined.
#[global] Instance CursorKind_eq_dec : EqDecision CursorKind.
Proof. solve_decision. Defined.

Record Token := mkToken {
  tok_kind : TokenKind;
  tok_spelling : string
}.

(** A cursor as [walk_preorder] yields it: [node.kind], [node.spelling]
    and [node.get_tokens()]. *)
Record Cursor := mkCursor {
  cur_kind : CursorKind;
  cur_spelling : string;
  get_tokens : list Token
}.

(** ** Python string primitives used by the extractor *)

(** The double-quote character. *)
Definition dquote : ascii := "034"%char.

(** [s.startswith(p)] *)
Definition startswith (s p : string) : bool := String.prefix p s.

(** [len(s)] *)
Definition len (s : string) : nat := String.length s.

(** [s[1:-1]]: Python clamps the bounds, so strings shorter than two
    characters give the empty string. *)
Definition slice_1_m1 (s : string) : string :=
  substring 1 (len s - 2) s.

(** ** LiteralExtractor (the generator expression of [process_file]) *)

(** The filter of the generator: the token is a LITERAL, its spelling
    starts with a double quote, and [len(token.spelling) > 12]. *)
Definition qualifies (token : Token) : bool :=
  bool_decide (tok_kind token = LITERAL)
  && startswith (tok_spelling token) (String dquote "")
  && bool_decide (12 < len (tok_spelling token)).

(** [(token.spelling[1:-1] for token in node.get_tokens() if ...)] *)
Definition literals (node : Cursor) : list string :=
  map (fun token => slice_1_m1 (tok_spelling token))
      (List.filter qualifies (get_tokens node)).

(** The raw spelling of a string literal with content [c]. *)
Definition quoted (c : string) : string :=
  String dquote (c +:+ String dquote "").

Example literals_example :
  literals (mkCursor FUNCTION_DECL "f"
     [mkToken IDENTIFIER "printf";
      mkToken LITERAL (quoted "0123456789A");
      mkToken LITERAL (quoted "0123456789");
      mkToken LITERAL "1234567890123";
      mkToken COMMENT (quoted "a comment, not a literal")])
  = ["0123456789A"].
Proof. reflexivity. Qed.

(** ** External interfaces *)

(** [xxhash]: the streaming hasher used on file blocks and the one-shot
    digest used on literal text. *)
Class XXHash := {
  xxh64_state : Type;
  xxh64 : xxh64_state;
  xxh64_update : xxh64_state → bytes → xxh64_state;
  xxh64_state_digest : xxh64_state → bytes;
  xxh64_digest : string → bytes
}.

(** The Python values this program pickles: the reverse index is a
    [dict] from digest to [set] of names, the files database a [set] of
    digests.  Every set stored in the index is created by its own
    set display, so no two keys share one set object and the sets can
    be kept by value. *)
Inductive pyobj :=
  | PyDict (d : gmap bytes (gset string))
  | PySet (s : gset bytes).

#[global] Instance pyobj_eq_dec : EqDecision pyobj.
Proof. solve_decision. Defined.

(** [pickle]: [dumps] never fails on these values; [loads] fails
    ([None]) on bytes it cannot decode; what was dumped loads back. *)
Class Pickle := {
  pickle_dumps : pyobj → bytes;
  pickle_loads : bytes → option pyobj;
  pickle_loads_dumps : ∀ o, pickle_loads (pickle_dumps o) = Some o
}.

(** ** The world the program runs in *)

(** A source file as the program sees it: its path, [Path.suffix], the
    blocks successive [f.read(blocksize)] calls return, and the cursors
    of [index.parse(filepath).cursor.walk_preorder()]. *)
Record SrcFile := mkSrcFile {
  sf_path : string;
  sf_suffix : string;
  sf_blocks : list bytes;
  sf_walk_preorder : list Cursor
}.

(** What [Path(path)] refers to; for a directory, the paths matched by
    the [rglob] pattern. *)
Inductive PathStat :=
  | IsFile (f : SrcFile)
  | IsDir (rglob : list SrcFile)
  | NoSuchPath.

(** Clock readings ([time.perf_counter], in seconds) at the places
    where they decide something, and the Ctrl+C schedule: [w_sigint 0]
    says whether SIGINT arrives between the installation of the handler
    and the first file, [w_sigint i] whether it arrives while file
    number [i] (counted from 1) is being processed.  The schedule
    starts once [signal.signal] has installed the handler. *)
Record World := mkWorld {
  w_stat : string → PathStat;
  w_start_time : Q;
  w_curr_time : nat → Q;
  w_saved_time : nat → Q;
  w_sigint : nat → bool
}.

(** ** Command line *)

Inductive Cmd :=
  | CmdParse (restart : bool) (input_file : string)
  | CmdFind (str : string)
  | CmdPrint
  | CmdInfo
  | CmdNone.

Record Args := mkArgs {
  strdb : string;
  filesdb : string;
  savetime : Z;
  cmd : Cmd
}.

(** ** Global state, console and exceptions *)

Inductive Msg :=
  | MsgCtrlC
  | MsgNoFiles (path : string)
  | MsgFound (total_files : nat)
  | MsgProgress (file_num total_files : nat) (filepath : string)
  | MsgAlreadyDone
  | MsgFileDone (db_size : nat)
  | MsgInterrupted
  | MsgProcessed (files_number files_size : nat)
  | MsgDbSize (db_size : nat)
  | MsgFoundIn (functions : gset string)
  | MsgNotFound
  | MsgEntry (hash_value : bytes) (functions : gset string)
  | MsgRule
  | MsgUnknown.

(** The module-level variables, the database files on disk and what
    has been printed (most recent last).  Timing figures shown on the
    console are left out of the messages. *)
Record Globals := mkGlobals {
  db : pyobj;
  fdb : pyobj;
  interrupt : bool;
  files_number : nat;
  files_size : nat;
  save_time : Q;
  disk : gmap string bytes;
  stdout : list Msg
}.

Definition set_db (v : pyobj) (g : Globals) : Globals :=
  mkGlobals v (fdb g) (interrupt g) (files_number g) (files_size g)
            (save_time g) (disk g) (stdout g).
Definition set_fdb (v : pyobj) (g : Globals) : Globals :=
  mkGlobals (db g) v (interrupt g) (files_number g) (files_size g)
            (save_time g) (disk g) (stdout g).
Definition set_interrupt (v : bool) (g : Globals) : Globals :=
  mkGlobals (db g) (fdb g) v (files_number g) (files_size g)
            (save_time g) (disk g) (stdout g).
Definition set_files_number (v : nat) (g : Globals) : Globals :=
  mkGlobals (db g) (fdb g) (interrupt g) v (files_size g)
            (save_time g) (disk g) (stdout g).
Definition set_files_size (v : nat) (g : Globals) : Globals :=
  mkGlobals (db g) (fdb g) (interrupt g) (files_number g) v
            (save_time g) (disk g) (stdout g).
Definition set_save_time (v : Q) (g : Globals) : Globals :=
  mkGlobals (db g) (fdb g) (interrupt g) (files_number g) (files_size g)
            v (disk g) (stdout g).
Definition set_disk (v : gmap string bytes) (g : Globals) : Globals :=
  mkGlobals (db g) (fdb g) (interrupt g) (files_number g) (files_size g)
            (save_time g) v (stdout g).
Definition set_stdout (v : list Msg) (g : Globals) : Globals :=
  mkGlobals (db g) (fdb g) (interrupt g) (files_number g) (files_size g)
            (save_time g) (disk g) v.

Inductive exn := TypeError | AttributeError | KeyError | UnpicklingError.

(** A statement either completes with a value or raises; in both cases
    the globals (and the disk) are as the statement left them.  Nothing
    in the program catches an exception. *)
Inductive outcome (A : Type) :=
  | Ok (a : A) (g : Globals)
  | Raise (e : exn) (g : Globals).
Arguments Ok {A} a g.
Arguments Raise {A} e g.

Definition M (A : Type) : Type := Globals → outcome A.

Definition ret {A} (a : A) : M A := fun g => Ok a g.
Definition bind {A B} (m : M A) (k : A → M B) : M B :=
  fun g => match m g with
           | Ok a g' => k a g'
           | Raise e g' => Raise e g'
           end.
Definition raise {A} (e : exn) : M A := fun g => Raise e g.
Definition gets {A} (f : Globals → A) : M A := fun g => Ok (f g) g.
Definition modify (f : Globals → Globals) : M unit := fun g => Ok tt (f g).

Declare Scope py_scope.
Delimit Scope py_scope with py.
Notation "'let*' x ':=' m 'in' k" := (bind m (fun x => k))
  (at level 10, x name, m at level 100, k at level 200) : py_scope.
Notation "m1 ;; m2" := (bind m1 (fun _ => m2))
  (at level 100, m2 at level 200, right associativity) : py_scope.
Open Scope py_scope.

(** The final globals of a run, however it ended. *)
Definition final {A} (o : outcome A) : Globals :=
  match o with Ok _ g => g | Raise _ g => g end.

(** The value a statement completes with, if it completes. *)
Definition value {A} (o : outcome A) : option A :=
  match o with Ok a _ => Some a | Raise _ _ => None end.

(** [for x in l: body] *)
Fixpoint for_each {A} (l : list A) (body : A → M unit) : M unit :=
  match l with
  | [] => ret tt
  | x :: l' => body x ;; for_each l' body
  end.

(** [print(...)] *)
Definition echo (m : Msg) : M unit :=
  modify (fun g => set_stdout (stdout g ++ [m]) g).

(** ** Python operations on the two tables *)

(** [k in o] *)
Definition py_contains (k : bytes) (o : pyobj) : bool :=
  match o with
  | PyDict d => bool_decide (k ∈ dom d)
  | PySet s => bool_decide (k ∈ s)
  end.

(** [len(o)] *)
Definition py_len (o : pyobj) : nat :=
  match o with
  | PyDict d => size d
  | PySet s => size s
  end.

(** [db[hash_value] = {func_name}] *)
Definition db_setitem (hash_value : bytes) (v : gset string) : M unit :=
  fun g => match db g with
           | PyDict d => Ok tt (set_db (PyDict (<[hash_value := v]> d)) g)
           | PySet _ => Raise TypeError g
           end.

(** [db[hash_value].add(func_name)] *)
Definition db_getitem_add (hash_value : bytes) (func_name : string) : M unit :=
  fun g => match db g with
           | PyDict d =>
               match d !! hash_value with
               | Some s =>
                   Ok tt (set_db (PyDict (<[hash_value := {[func_name]} ∪ s]> d)) g)
               | None => Raise KeyError g
               end
           | PySet _ => Raise TypeError g
           end.

(** [db[hash_value]] *)
Definition db_getitem (hash_value : bytes) : M (gset string) :=
  fun g => match db g with
           | PyDict d =>
               match d !! hash_value with
               | Some s => Ok s g
               | None => Raise KeyError g
               end
           | PySet _ => Raise TypeError g
           end.

(** [db.items()] *)
Definition db_items : M (list (bytes * gset string)) :=
  fun g => match db g with
           | PyDict d => Ok (map_to_list d) g
           | PySet _ => Raise AttributeError g
           end.

(** [fdb.add(fhash)] *)
Definition fdb_add (fhash : bytes) : M unit :=
  fun g => match fdb g with
           | PySet s => Ok tt (set_fdb (PySet ({[fhash]} ∪ s)) g)
           | PyDict _ => Raise AttributeError g
           end.

(** ** The program *)

Section Program.
Context {xx : XXHash} {pk : Pickle}.
Variable args : Args.
Variable W : World.

(** [signal_handler]: prints and sets the flag, nothing else. *)
Definition signal_handler : M unit :=
  echo MsgCtrlC ;;
  modify (set_interrupt true).

(** Delivery of SIGINT at schedule point [i], once the handler is
    installed. *)
Definition deliver_sigint (i : nat) : M unit :=
  if w_sigint W i then signal_handler else ret tt.

(** [save_db]: the file is opened for writing and receives the
    pickled object. *)
Definition save_db (o : pyobj) (filename : string) : M unit :=
  modify (fun g => set_disk (<[filename := pickle_dumps o]> (disk g)) g).

Definition save_all : M unit :=
  (let* o := gets db in save_db o (strdb args)) ;;
  (let* o := gets fdb in save_db o (filesdb args)).

(** [load_db] and [load_fdb] differ only in the default for a
    missing file. *)
Definition load_or (default : pyobj) (filename : string) : M pyobj :=
  fun g => match disk g !! filename with
           | Some content =>
               match pickle_loads content with
               | Some o => Ok o g
               | None => Raise UnpicklingError g
               end
           | None => Ok default g
           end.

Definition load_db (filename : string) : M pyobj :=
  load_or (PyDict ∅) filename.

Definition load_fdb (filename : string) : M pyobj :=
  load_or (PySet ∅) filename.

Definition get_hash (s : string) : bytes := xxh64_digest s.

(** The loop of [get_file_hash_xx]: [iter] stops at the first empty
    block. *)
Fixpoint hash_blocks (hasher : xxh64_state) (blocks : list bytes)
  : M xxh64_state :=
  match blocks with
  | [] => ret hasher
  | [] :: _ => ret hasher
  | block :: rest =>
      modify (fun g => set_files_size (files_size g + length block) g) ;;
      hash_blocks (xxh64_update hasher block) rest
  end.

Definition get_file_hash_xx (f : SrcFile) : M bytes :=
  modify (fun g => set_files_number (files_number g + 1) g) ;;
  let* hasher := hash_blocks xxh64 (sf_blocks f) in
  ret (xxh64_state_digest hasher).

(** [get_cpp_files] *)
Definition get_cpp_files (path : string) : list SrcFile :=
  match w_stat W path with
  | IsFile f =>
      if bool_decide (sf_suffix f ∈ [".c"; ".cpp"]) then [f] else []
  | IsDir rglob =>
      filter (fun f => sf_suffix f ∈ [".c"; ".cpp"]) rglob
  | NoSuchPath => []
  end.

(** The body of the literal loop (the [if]/[else] on [hash_value]). *)
Definition merge (hash_value : bytes) (func_name : string) : M unit :=
  let* present := gets (fun g => py_contains hash_value (db g)) in
  if negb present
  then db_setitem hash_value {[func_name]}
  else db_getitem_add hash_value func_name.

(** The body of the cursor loop. *)
Definition process_node (node : Cursor) : M unit :=
  if decide (cur_kind node = FUNCTION_DECL) then
    let func_name := cur_spelling node in
    for_each (literals node) (fun s =>
      let hash_value := get_hash s in
      merge hash_value func_name)
  else ret tt.

Definition process_file (f : SrcFile) (file_num total_files : nat)
  : M unit :=
  echo (MsgProgress file_num total_files (sf_path f)) ;;
  let* fhash := get_file_hash_xx f in
  let* known := gets (fun g => py_contains fhash (fdb g)) in
  if known then echo MsgAlreadyDone
  else
    for_each (sf_walk_preorder f) process_node ;;
    fdb_add fhash ;;
    let curr_time := w_curr_time W file_num in
    (let* n := gets (fun g => py_len (db g)) in echo (MsgFileDone n)) ;;
    let* saved := gets save_time in
    if Qlt_le_dec (inject_Z (savetime args)) (curr_time - saved)
    then save_all ;; modify (set_save_time (w_saved_time W file_num))
    else ret tt.

(** The [for i, file_path in enumerate(files, 1)] loop with its
    [break].  The flag is read once per iteration, before the file
    is begun; a SIGINT that arrives during file [i] is delivered
    after that reading. *)
Fixpoint process_files (files : list SrcFile) (i total_files : nat)
  : M unit :=
  match files with
  | [] => ret tt
  | file_path :: rest =>
      let* stop := gets interrupt in
      if stop then echo MsgInterrupted
      else
        deliver_sigint i ;;
        process_file file_path i total_files ;;
        process_files rest (S i) total_files
  end.

Definition process_path (path : string) : M unit :=
  let files := get_cpp_files path in
  let total_files := length files in
  if bool_decide (total_files = 0) then echo (MsgNoFiles path)
  else
    echo (MsgFound total_files) ;;
    process_files files 1 total_files ;;
    let* n := gets files_number in
    let* sz := gets files_size in
    echo (MsgProcessed n sz).

(** The start of the main block: the two tables are cleared or
    loaded. *)
Definition load_all : M unit :=
  match cmd args with
  | CmdParse true _ =>
      modify (set_db (PyDict ∅)) ;;
      modify (set_fdb (PySet ∅))
  | _ =>
      (let* o := load_db (strdb args) in modify (set_db o)) ;;
      (let* o := load_fdb (filesdb args) in modify (set_fdb o))
  end.

(** The [match args.cmd] block. *)
Definition dispatch : M unit :=
  match cmd args with
  | CmdParse _ input_file =>
      deliver_sigint 0 ;;
      modify (set_save_time (w_start_time W)) ;;
      process_path input_file ;;
      save_all ;;
      let* n := gets (fun g => py_len (db g)) in
      echo (MsgDbSize n)
  | CmdFind str =>
      let hash_value := get_hash str in
      let* present := gets (fun g => py_contains hash_value (db g)) in
      if present
      then let* functions := db_getitem hash_value in
           echo (MsgFoundIn functions)
      else echo MsgNotFound
  | CmdPrint =>
      (let* items := db_items in
       for_each items (fun kv => echo (MsgEntry (fst kv) (snd kv)))) ;;
      echo MsgRule ;;
      let* n := gets (fun g => py_len (db g)) in
      echo (MsgDbSize n)
  | CmdInfo =>
      let* n := gets (fun g => py_len (db g)) in
      echo (MsgDbSize n)
  | CmdNone => echo MsgUnknown
  end.

Definition main : M unit := load_all ;; dispatch.

(** The globals when the interpreter starts the script with the
    given database files on disk ([db] and [fdb] are not bound yet
    and are not read before [load_all] assigns them). *)
Definition boot (files : gmap string bytes) : Globals :=
  mkGlobals (PyDict ∅) (PySet ∅) false 0 0 0%Q files [].

(** One invocation of the script. *)
Definition run (files : gmap string bytes) : outcome unit :=
  main (boot files).

End Program.

(** ** Reference instances of the external interfaces

    Concrete stand-ins with the same shape as the libraries, so that
    the program can be run on examples: a 64-bit FNV-1a digest in place
    of xxh64 and a bit-per-byte codec in place of pickle. *)

Module Reference.

Definition byte_of_N (n : N) : Byte.byte :=
  default Byte.x00 (Byte.of_N (n mod 256)).

(** Eight bytes, most significant first. *)
Definition digest_of_N (h : N) : bytes :=
  map (fun i => byte_of_N (N.shiftr h (8 * i))) [7; 6; 5; 4; 3; 2; 1; 0]%N.

Definition fnv_step (h : N) (b : N) : N :=
  (N.lxor h b * 1099511628211) mod 2 ^ 64.

Definition fnv_bytes (h : N) (block : bytes) : N :=
  fold_left (fun h b => fnv_step h (Byte.to_N b)) block h.

Fixpoint fnv_string (h : N) (s : string) : N :=
  match s with
  | EmptyString => h
  | String c s' => fnv_string (fnv_step h (N_of_ascii c)) s'
  end.

#[export] Instance fnv_hash : XXHash := {|
  xxh64_state := N;
  xxh64 := 14695981039346656037%N;
  xxh64_update := fnv_bytes;
  xxh64_state_digest := digest_of_N;
  xxh64_digest := fun s => digest_of_N (fnv_string 14695981039346656037%N s)
|}.

#[export] Instance pyobj_countable : Countable pyobj :=
  inj_countable'
    (fun o => match o with PyDict d => inl d | PySet s => inr s end)
    (fun x => match x with inl d => PyDict d | inr s => PySet s end)
    (fun o => match o with PyDict _ => eq_refl | PySet _ => eq_refl end).

Fixpoint bits_of_pos (p : positive) : bytes :=
  match p with
  | xH => []
  | xO q => Byte.x00 :: bits_of_pos q
  | xI q => Byte.x01 :: bits_of_pos q
  end.

Fixpoint pos_of_bits (l : bytes) : option positive :=
  match l with
  | [] => Some xH
  | b :: l' =>
      if decide (b = Byte.x00) then xO <$> pos_of_bits l'
      else if decide (b = Byte.x01) then xI <$> pos_of_bits l'
      else None
  end.

Lemma pos_of_bits_of_pos p : pos_of_bits (bits_of_pos p) = Some p.
Proof. induction p as [q IH|q IH|]; simpl; [| |done]; by rewrite IH. Qed.

(** A one-byte header, then the bits of the object's code. *)
Definition dumps (o : pyobj) : bytes :=
  Byte.x80 :: bits_of_pos (encode o).

Definition loads (content : bytes) : option pyobj :=
  match content with
  | b :: l =>
      if decide (b = Byte.x80) then pos_of_bits l ≫= decode else None
  | [] => None
  end.

Lemma loads_dumps o : loads (dumps o) = Some o.
Proof.
  unfold loads, dumps. rewrite decide_True by done.
  rewrite pos_of_bits_of_pos. simpl. apply decode_encode.
Qed.

#[export] Instance bit_pickle : Pickle := {|
  pickle_dumps := dumps;
  pickle_loads := loads;
  pickle_loads_dumps := loads_dumps
|}.

End Reference.


(** * Properties *)

(** ** Strings *)

Lemma len_app (s t : string) : len (s +:+ t) = len s + len t.
Proof. induction s as [|a s IH]; simpl; [done|]. unfold len in *. simpl. lia. Qed.

Lemma substring_0_app (c t : string) : substring 0 (len c) (c +:+ t) = c.
Proof.
  induction c as [|a c IH]; simpl.
  - by destruct t.
  - unfold len in *. by rewrite IH.
Qed.

Lemma len_quoted (c : string) : len (quoted c) = len c + 2.
Proof. unfold quoted. change (len (String dquote ?s)) with (S (len s)).
  rewrite len_app. unfold len. simpl. lia. Qed.

(** Dropping the first and the last character of [a :: c ++ [b]]
    gives back [c], untouched. *)
Lemma slice_first_last (a b : ascii) (c : string) :
  slice_1_m1 (String a (c +:+ String b "")) = c.
Proof.
  unfold slice_1_m1. change (len (String a ?s)) with (S (len s)).
  rewrite len_app. replace (S (len c + len (String b "")) - 2) with (len c)
    by (unfold len; simpl; lia).
  apply substring_0_app.
Qed.

Lemma all_but_last (t : string) :
  t ≠ "" → ∃ b, t = substring 0 (len t - 1) t +:+ String b "".
Proof.
  induction t as [|x t IH]; [done|]. intros _.
  destruct t as [|y t].
  - by exists x.
  - destruct IH as [b Hb]; [done|]. exists b.
    replace (len (String x (String y t)) - 1) with (S (len (String y t) - 1))
      by (unfold len; simpl; lia).
    change (substring 0 (S ?m) (String x ?s)) with (String x (substring 0 m s)).
    change (String x ?s +:+ ?u) with (String x (s +:+ u)). by f_equal.
Qed.

(** Conversely, a spelling of two characters or more is its first
    character, its slice, and its last character. *)
Lemma first_last_split (s : string) :
  2 ≤ len s → ∃ a b, s = String a (slice_1_m1 s +:+ String b "").
Proof.
  destruct s as [|a t]; [unfold len; simpl; lia|].
  intros Hlen. destruct (all_but_last t) as [b Hb].
  { destruct t; [unfold len in Hlen; simpl in Hlen; lia|done]. }
  exists a, b. f_equal. unfold slice_1_m1.
  replace (len (String a t) - 2) with (len t - 1)
    by (unfold len; simpl; lia).
  change (substring 1 ?m (String a ?s)) with (substring 0 m s).
  exact Hb.
Qed.

Lemma startswith_dquote (s : string) :
  startswith s (String dquote "") = true ↔ ∃ rest, s = String dquote rest.
Proof.
  unfold startswith. destruct s as [|a s].
  - split; [discriminate|]. by intros [? ?].
  - change (String.prefix (String dquote "") (String a s))
      with (if ascii_dec dquote a then String.prefix "" s else false).
    destruct (ascii_dec dquote a) as [<-|Hne].
    + split; [eauto|]. by destruct s.
    + split; [discriminate|]. by intros [rest [= -> _]].
Qed.

(** ** LiteralExtractor *)

Lemma qualifies_spec (token : Token) :
  qualifies token = true ↔
    tok_kind token = LITERAL
    ∧ (∃ rest, tok_spelling token = String dquote rest)
    ∧ 12 < len (tok_spelling token).
Proof.
  unfold qualifies. rewrite !andb_true_iff, !bool_decide_eq_true.
  rewrite startswith_dquote. tauto.
Qed.

Lemma qualifies_quoted (k : TokenKind) (c : string) :
  qualifies (mkToken k (quoted c)) = bool_decide (k = LITERAL ∧ 10 < len c).
Proof.
  apply eq_true_iff_eq. rewrite qualifies_spec, bool_decide_eq_true.
  cbn [tok_kind tok_spelling]. rewrite len_quoted. split.
  - intros (? & _ & ?). split; [done|lia].
  - intros [? ?]. split; [done|]. split; [by eexists|lia].
Qed.

Lemma literals_app (k : CursorKind) (n : string) (pre post : list Token) :
  literals (mkCursor k n (pre ++ post))
  = literals (mkCursor k n pre) ++ literals (mkCursor k n post).
Proof. unfold literals. simpl. by rewrite List.filter_app, map_app. Qed.

Lemma elem_of_literals (node : Cursor) (s : string) :
  s ∈ literals node ↔
    ∃ token, token ∈ get_tokens node ∧ qualifies token = true
             ∧ s = slice_1_m1 (tok_spelling token).
Proof.
  unfold literals. rewrite list_elem_of_In, in_map_iff. split.
  - intros (token & <- & Hin). apply filter_In in Hin as [Hin Hq].
    exists token. by rewrite list_elem_of_In.
  - intros (token & Hin & Hq & ->). exists token. split; [done|].
    apply filter_In. by rewrite <- list_elem_of_In.
Qed.

(** ** Reasoning about statements

    [wp m Q g]: run from [g], the statement [m] completes without
    raising, and its value and final globals satisfy [Q]. *)

Definition wp {A} (m : M A) (Q : A → Globals → Prop) (g : Globals) : Prop :=
  match m g with
  | Ok a g' => Q a g'
  | Raise _ _ => False
  end.

Lemma wp_ok {A} (m : M A) Q g :
  wp m Q g ↔ ∃ a g', m g = Ok a g' ∧ Q a g'.
Proof.
  unfold wp. destruct (m g) as [a g'|e g']; split.
  - eauto.
  - by intros (? & ? & [= <- <-] & ?).
  - done.
  - by intros (? & ? & ? & _).
Qed.

Lemma wp_ret {A} (a : A) (Q : A → Globals → Prop) g : Q a g → wp (ret a) Q g.
Proof. done. Qed.

Lemma wp_bind {A B} (m : M A) (k : A → M B) Q g :
  wp m (fun a g' => wp (k a) Q g') g → wp (bind m k) Q g.
Proof. unfold wp, bind. by destruct (m g). Qed.

Lemma wp_gets {A} (f : Globals → A) (Q : A → Globals → Prop) g :
  Q (f g) g → wp (gets f) Q g.
Proof. done. Qed.

Lemma wp_modify (f : Globals → Globals) (Q : unit → Globals → Prop) g :
  Q tt (f g) → wp (modify f) Q g.
Proof. done. Qed.

Lemma wp_mono {A} (m : M A) (Q Q' : A → Globals → Prop) g :
  wp m Q g → (∀ a g', Q a g' → Q' a g') → wp m Q' g.
Proof. unfold wp. destruct (m g); [eauto|done]. Qed.

(** The loop rule: [I seen] holds of the globals once the elements
    [seen] have been handled. *)
Lemma wp_for_each {A} (body : A → M unit) (I : list A → Globals → Prop) l g :
  I [] g →
  (∀ seen x g, I seen g → wp (body x) (fun _ g' => I (seen ++ [x]) g') g) →
  wp (for_each l body) (fun _ g' => I l g') g.
Proof.
  intros H0 Hbody. 
  cut (∀ seen g, I seen g → wp (for_each l body) (fun _ g' => I (seen ++ l) g') g).
  { intros Hc. apply (Hc [] g H0). }
  clear g H0. induction l as [|x l IH]; intros seen g HI; simpl.
  - apply wp_ret. by rewrite app_nil_r.
  - apply wp_bind. eapply wp_mono; [by apply Hbody|].
    intros [] g' HI'. cbn beta. eapply wp_mono; [by apply IH|].
    intros [] g'' HI''. by rewrite <- app_assoc in HI''.
Qed.

(** ** The reverse index as a dictionary *)

Abbreviation index := (gmap bytes (gset string)).

(** What [merge] does to a dictionary. *)
Definition merge_dict (h : bytes) (n : string) (d : index) : index :=
  match d !! h with
  | Some s => <[h := {[n]} ∪ s]> d
  | None => <[h := {[n]}]> d
  end.

(** [n] is recorded under [h]. *)
Definition entry (d : index) (h : bytes) (n : string) : Prop :=
  ∃ s, d !! h = Some s ∧ n ∈ s.

(** No key maps to the empty set. *)
Definition nonempty_sets (d : index) : Prop :=
  ∀ h s, d !! h = Some s → s ≠ ∅.

Lemma set_db_id g : set_db (db g) g = g.
Proof. by destruct g. Qed.

Lemma merge_PyDict h n d g :
  db g = PyDict d →
  merge h n g = Ok tt (set_db (PyDict (merge_dict h n d)) g).
Proof.
  intros Hd. unfold merge, bind, gets, merge_dict. rewrite Hd. simpl.
  destruct (d !! h) as [s|] eqn:Hl.
  - rewrite bool_decide_eq_true_2 by (apply elem_of_dom; eauto). simpl.
    unfold db_getitem_add. by rewrite Hd, Hl.
  - rewrite bool_decide_eq_false_2 by (by rewrite not_elem_of_dom). simpl.
    unfold db_setitem. by rewrite Hd.
Qed.

Lemma lookup_merge_dict h n d h' :
  merge_dict h n d !! h' =
    if decide (h = h') then Some ({[n]} ∪ default ∅ (d !! h)) else d !! h'.
Proof.
  unfold merge_dict. destruct (d !! h) as [s|] eqn:Hl; rewrite lookup_insert;
    case_decide; simpl; try done. f_equal. set_solver.
Qed.

Lemma entry_merge_dict h n d h' n' :
  entry (merge_dict h n d) h' n' ↔ entry d h' n' ∨ (h' = h ∧ n' = n).
Proof.
  unfold entry. rewrite lookup_merge_dict. case_decide as Hh.
  - subst h'. split.
    + intros (s & [= <-] & Hin). apply elem_of_union in Hin as [Hin|Hin].
      * right. set_solver.
      * left. destruct (d !! h) as [s|]; [eauto|set_solver].
    + intros [(s & Hs & Hin)|[_ ->]]; eexists; (split; [done|]);
        rewrite ?Hs; set_solver.
  - split; [eauto|]. intros [?|[-> _]]; done.
Qed.

Lemma nonempty_merge_dict h n d :
  nonempty_sets d → nonempty_sets (merge_dict h n d).
Proof.
  intros Hd h' s. rewrite lookup_merge_dict. case_decide.
  - intros [= <-]. set_solver.
  - apply Hd.
Qed.

Lemma dom_merge_dict h n d : dom (merge_dict h n d) = {[h]} ∪ dom d.
Proof. unfold merge_dict. destruct (d !! h); by rewrite dom_insert_L. Qed.

Lemma merge_dict_idem h n d :
  merge_dict h n (merge_dict h n d) = merge_dict h n d.
Proof.
  apply map_eq. intros h'. rewrite !lookup_merge_dict.
  case_decide; [|done]. rewrite decide_True by done. simpl. f_equal. set_solver.
Qed.

(** A loop whose body only rewrites the dictionary folds that rewrite
    over the list. *)
Lemma for_each_db {A} (body : A → M unit) (F : A → index → index) l :
  (∀ x d g, db g = PyDict d → body x g = Ok tt (set_db (PyDict (F x d)) g)) →
  ∀ d g, db g = PyDict d →
    for_each l body g = Ok tt (set_db (PyDict (foldl (fun d x => F x d) d l)) g).
Proof.
  intros Hbody. induction l as [|x l IH]; intros d g Hd; simpl.
  - unfold ret. by rewrite <- Hd, set_db_id.
  - unfold bind. rewrite (Hbody x d g Hd). by rewrite (IH (F x d)).
Qed.

Section Indexing.
Context {xx : XXHash}.

(** What the cursor loop does to the dictionary, for one cursor and
    for a whole file. *)
Definition index_node (node : Cursor) (d : index) : index :=
  if decide (cur_kind node = FUNCTION_DECL)
  then foldl (fun d s => merge_dict (get_hash s) (cur_spelling node) d)
             d (literals node)
  else d.

Definition index_file (f : SrcFile) (d : index) : index :=
  foldl (fun d node => index_node node d) d (sf_walk_preorder f).

(** The function declaration [node], named [n], holds a qualifying
    literal whose digest is [h]. *)
Definition node_entry (node : Cursor) (h : bytes) (n : string) : Prop :=
  cur_kind node = FUNCTION_DECL ∧ cur_spelling node = n
  ∧ ∃ s, s ∈ literals node ∧ get_hash s = h.

Definition file_entry (f : SrcFile) (h : bytes) (n : string) : Prop :=
  ∃ node, node ∈ sf_walk_preorder f ∧ node_entry node h n.

Lemma process_node_PyDict node d g :
  db g = PyDict d →
  process_node node g = Ok tt (set_db (PyDict (index_node node d)) g).
Proof.
  intros Hd. unfold process_node, index_node. case_decide as Hk.
  - apply (for_each_db _ (fun s => merge_dict (get_hash s) (cur_spelling node)));
      [|done].
    intros s d' g' Hd'. by apply merge_PyDict.
  - unfold ret. by rewrite <- Hd, set_db_id.
Qed.

Lemma walk_PyDict f d g :
  db g = PyDict d →
  for_each (sf_walk_preorder f) process_node g
  = Ok tt (set_db (PyDict (index_file f d)) g).
Proof.
  intros Hd. apply (for_each_db _ index_node); [|done].
  intros node d' g' Hd'. by apply process_node_PyDict.
Qed.

Lemma entry_foldl_merge name l d h n :
  entry (foldl (fun d s => merge_dict (get_hash s) name d) d l) h n
  ↔ entry d h n ∨ (n = name ∧ ∃ s, s ∈ l ∧ get_hash s = h).
Proof.
  revert d. induction l as [|s l IH]; intros d; simpl.
  - split; [eauto|]. intros [?|(_ & s & Hs & _)]; [done|].
    by apply elem_of_nil in Hs.
  - rewrite IH, entry_merge_dict. split.
    + intros [[?|[-> ->]]|(-> & s' & Hs' & Hh)]; [by left|right..].
      * split; [done|]. exists s. split; [left|done].
      * split; [done|]. exists s'. split; [by right|done].
    + intros [?|(-> & s' & Hs' & Hh)]; [by left; left|].
      apply elem_of_cons in Hs' as [->|Hs']; [left; right; by subst|].
      right. eauto.
Qed.

Lemma dom_foldl_merge name l d :
  dom (foldl (fun d s => merge_dict (get_hash s) name d) d l)
  = dom d ∪ list_to_set (get_hash <$> l).
Proof.
  revert d. induction l as [|s l IH]; intros d; simpl.
  - set_solver.
  - rewrite IH, dom_merge_dict. set_solver.
Qed.

Lemma nonempty_foldl_merge name l d :
  nonempty_sets d →
  nonempty_sets (foldl (fun d s => merge_dict (get_hash s) name d) d l).
Proof.
  revert d. induction l as [|s l IH]; intros d Hd; simpl; [done|].
  by apply IH, nonempty_merge_dict.
Qed.

Lemma entry_index_node node d h n :
  entry (index_node node d) h n ↔ entry d h n ∨ node_entry node h n.
Proof.
  unfold index_node, node_entry. case_decide as Hk.
  - rewrite entry_foldl_merge. naive_solver.
  - naive_solver.
Qed.

Lemma nonempty_index_node node d :
  nonempty_sets d → nonempty_sets (index_node node d).
Proof.
  unfold index_node. case_decide; [|done]. apply nonempty_foldl_merge.
Qed.

Lemma entry_index_file f d h n :
  entry (index_file f d) h n ↔ entry d h n ∨ file_entry f h n.
Proof.
  unfold index_file, file_entry. revert d.
  induction (sf_walk_preorder f) as [|node l IH]; intros d; simpl.
  - split; [eauto|]. intros [?|(node & Hn & _)]; [done|].
    by apply elem_of_nil in Hn.
  - rewrite IH, entry_index_node. split.
    + intros [[?|?]|(node' & ? & ?)]; [by left|right..].
      * exists node. split; [left|done].
      * exists node'. split; [by right|done].
    + intros [?|(node' & Hin & ?)]; [by left; left|].
      apply elem_of_cons in Hin as [->|Hin]; [by left; right|].
      right. eauto.
Qed.

Lemma nonempty_index_file f d :
  nonempty_sets d → nonempty_sets (index_file f d).
Proof.
  unfold index_file. revert d.
  induction (sf_walk_preorder f) as [|node l IH]; intros d Hd; simpl; [done|].
  by apply IH, nonempty_index_node.
Qed.

End Indexing.

Lemma filter_eq_NoDup {A} `{EqDecision A} (x : A) (l : list A) :
  NoDup l → x ∈ l → length (filter (fun y => y = x) l) = 1.
Proof.
  induction 1 as [|y l Hy Hnd IH]; intros Hin.
  - by apply elem_of_nil in Hin.
  - rewrite filter_cons. case_decide as Hxy.
    + subst y. simpl. f_equal.
      destruct (filter (fun y => y = x) l) as [|z l'] eqn:Hf; [done|].
      assert (z ∈ filter (fun y => y = x) l) as Hz by (rewrite Hf; left).
      apply list_elem_of_filter in Hz as [-> Hz]. done.
    + apply IH. apply elem_of_cons in Hin as [->|Hin]; done.
Qed.

(** ** C1: the literal filter and the text that is hashed *)

(** C1.  For every cursor: the extracted texts are exactly the slices
    of the LITERAL tokens whose spelling starts with a double quote and
    is longer than 12 characters, the slice being the spelling without
    its first and last character and otherwise untouched; on a function
    declaration the digests of these texts are the keys the cursor adds
    to the index (no key is added for another kind of cursor); a quoted
    literal with at most 10 characters of content is left out and one
    with 11 is kept. *)
Theorem literal_extraction {xx : XXHash} (node : Cursor) :
  (∀ s, s ∈ literals node ↔
     ∃ token a, token ∈ get_tokens node
       ∧ tok_kind token = LITERAL
       ∧ tok_spelling token = String dquote (s +:+ String a "")
       ∧ 12 < len (tok_spelling token))
  ∧ (∀ d g, db g = PyDict d →
       ∃ d', process_node node g = Ok tt (set_db (PyDict d') g)
         ∧ dom d' = dom d ∪
             (if decide (cur_kind node = FUNCTION_DECL)
              then list_to_set (xxh64_digest <$> literals node) else ∅))
  ∧ (∀ k n pre post c, len c ≤ 10 →
       literals (mkCursor k n (pre ++ mkToken LITERAL (quoted c) :: post))
       = literals (mkCursor k n (pre ++ post)))
  ∧ (∀ k n pre post c, len c = 11 →
       literals (mkCursor k n (pre ++ mkToken LITERAL (quoted c) :: post))
       = literals (mkCursor k n pre) ++ c :: literals (mkCursor k n post)).
Proof.
  split; [|split; [|split]].
  - intros s. rewrite elem_of_literals. split.
    + intros (token & Hin & Hq & ->).
      apply qualifies_spec in Hq as (Hk & [rest Hrest] & Hlen).
      destruct (first_last_split (tok_spelling token)) as (a & b & Hsplit);
        [lia|].
      exists token, b. repeat split; try done.
      rewrite Hsplit at 1. f_equal. rewrite Hrest in Hsplit. congruence.
    + intros (token & a & Hin & Hk & Hsp & Hlen). exists token.
      split; [done|]. split.
      * apply qualifies_spec. repeat split; [done|by eexists|done].
      * by rewrite Hsp, slice_first_last.
  - intros d g Hd. exists (index_node node d).
    split; [by apply process_node_PyDict|].
    unfold index_node. case_decide; [|set_solver].
    apply dom_foldl_merge.
  - intros k n pre post c Hc.
    rewrite !literals_app. f_equal.
    change (mkToken LITERAL (quoted c) :: post)
      with ([mkToken LITERAL (quoted c)] ++ post).
    rewrite literals_app. unfold literals at 1. simpl.
    rewrite qualifies_quoted, bool_decide_eq_false_2; [done|lia].
  - intros k n pre post c Hc.
    rewrite literals_app. f_equal.
    change (mkToken LITERAL (quoted c) :: post)
      with ([mkToken LITERAL (quoted c)] ++ post).
    rewrite literals_app. unfold literals at 1. simpl.
    rewrite qualifies_quoted, bool_decide_eq_true_2 by (split; [done|lia]).
    simpl. f_equal. apply slice_first_last.
Qed.

(** ** C4: merging a (digest, name) pair *)

(** C4.  On a dictionary, [merge] stores the singleton of the name
    under an absent digest and adds the name to the set of a present
    one, leaving every other key alone; merging the same pair again
    changes nothing, and the name occurs exactly once among the
    elements of the set. *)
Theorem merge_idempotent (h : bytes) (n : string) (d : index) (g : Globals) :
  db g = PyDict d →
  ∃ d', merge h n g = Ok tt (set_db (PyDict d') g)
    ∧ (d !! h = None → d' !! h = Some {[n]})
    ∧ (∀ s, d !! h = Some s → d' !! h = Some ({[n]} ∪ s))
    ∧ (∀ h', h' ≠ h → d' !! h' = d !! h')
    ∧ merge h n (set_db (PyDict d') g) = Ok tt (set_db (PyDict d') g)
    ∧ (∀ s', d' !! h = Some s' →
         length (filter (fun x => x = n) (elements s')) = 1).
Proof.
  intros Hd. exists (merge_dict h n d). split; [by apply merge_PyDict|].
  split; [|split; [|split; [|split]]].
  - intros Hl. rewrite lookup_merge_dict, decide_True, Hl by done.
    simpl. f_equal. set_solver.
  - intros s Hl. by rewrite lookup_merge_dict, decide_True, Hl.
  - intros h' Hne. by rewrite lookup_merge_dict, decide_False.
  - rewrite (merge_PyDict h n (merge_dict h n d)) by done.
    by rewrite merge_dict_idem.
  - intros s'. rewrite lookup_merge_dict, decide_True by done.
    intros [= <-]. apply filter_eq_NoDup; [apply NoDup_elements|].
    apply elem_of_elements. set_solver.
Qed.

(** ** The tables during a run *)

(** [g'] differs from [g] at most in the console and the statistics. *)
Definition same_tables (g g' : Globals) : Prop :=
  db g' = db g ∧ fdb g' = fdb g ∧ interrupt g' = interrupt g
  ∧ save_time g' = save_time g ∧ disk g' = disk g.

Lemma same_tables_refl g : same_tables g g.
Proof. by repeat split. Qed.

Lemma same_tables_trans g1 g2 g3 :
  same_tables g1 g2 → same_tables g2 g3 → same_tables g1 g3.
Proof. unfold same_tables. intros (?&?&?&?&?) (?&?&?&?&?). repeat split; congruence. Qed.

(** A typed view of the four things a file can change. *)
Record View := mkView {
  v_db : index;
  v_fdb : gset bytes;
  v_save_time : Q;
  v_disk : gmap string bytes
}.

Definition view_of (T : View) (g : Globals) : Prop :=
  db g = PyDict (v_db T) ∧ fdb g = PySet (v_fdb T)
  ∧ save_time g = v_save_time T ∧ disk g = v_disk T.

Lemma view_of_same_tables T g g' : same_tables g g' → view_of T g → view_of T g'.
Proof. unfold same_tables, view_of. intros (?&?&?&?&?) (?&?&?&?). repeat split; congruence. Qed.

Section Run.
Context {xx : XXHash} {pk : Pickle}.
Variable args : Args.
Variable W : World.

(** The digest [get_file_hash_xx] returns for a file. *)
Fixpoint hash_state (hasher : xxh64_state) (blocks : list bytes) : xxh64_state :=
  match blocks with
  | [] => hasher
  | [] :: _ => hasher
  | block :: rest => hash_state (xxh64_update hasher block) rest
  end.

Definition file_digest (f : SrcFile) : bytes :=
  xxh64_state_digest (hash_state xxh64 (sf_blocks f)).

Lemma hash_blocks_spec blocks hasher g :
  wp (hash_blocks hasher blocks)
     (fun st g' => st = hash_state hasher blocks ∧ same_tables g g') g.
Proof.
  revert hasher g. induction blocks as [|block rest IH]; intros hasher g.
  - apply wp_ret. split; [done|apply same_tables_refl].
  - destruct block as [|b block].
    + apply wp_ret. split; [done|apply same_tables_refl].
    + cbn [hash_blocks hash_state]. apply wp_bind, wp_modify.
      eapply wp_mono; [apply IH|]. intros st g' [-> Hs]. split; [done|].
      eapply same_tables_trans; [|exact Hs]. by repeat split.
Qed.

Lemma get_file_hash_xx_spec f g :
  wp (get_file_hash_xx f) (fun h g' => h = file_digest f ∧ same_tables g g') g.
Proof.
  unfold get_file_hash_xx. apply wp_bind, wp_modify, wp_bind.
  eapply wp_mono; [apply hash_blocks_spec|]. intros st g' [-> Hs].
  apply wp_ret. split; [done|].
  eapply same_tables_trans; [|exact Hs]. by repeat split.
Qed.

(** The autosave test of [process_file]. *)
Definition save_due (file_num : nat) (saved : Q) : bool :=
  if Qlt_le_dec (inject_Z (savetime args)) (w_curr_time W file_num - saved)
  then true else false.

(** What [save_all] leaves on disk. *)
Definition saved (d : pyobj) (s : pyobj) (files : gmap string bytes)
  : gmap string bytes :=
  <[filesdb args := pickle_dumps s]> (<[strdb args := pickle_dumps d]> files).

(** What one call of [process_file] does to the view. *)
Definition file_step (f : SrcFile) (file_num : nat) (T : View) : View :=
  if decide (file_digest f ∈ v_fdb T) then T
  else
    let d' := index_file f (v_db T) in
    let s' := {[file_digest f]} ∪ v_fdb T in
    if save_due file_num (v_save_time T)
    then mkView d' s' (w_saved_time W file_num)
                (saved (PyDict d') (PySet s') (v_disk T))
    else mkView d' s' (v_save_time T) (v_disk T).

Lemma save_all_spec g :
  save_all args g = Ok tt (set_disk (saved (db g) (fdb g) (disk g)) g).
Proof. done. Qed.

Lemma process_file_spec f i t T g :
  view_of T g →
  wp (process_file args W f i t)
     (fun _ g' => view_of (file_step f i T) g' ∧ interrupt g' = interrupt g) g.
Proof.
  intros HT. unfold process_file. apply wp_bind, wp_modify, wp_bind.
  eapply wp_mono; [apply get_file_hash_xx_spec|].
  intros h g1 [-> Hs]. cbn beta.
  assert (view_of T g1) as (Hd & Hf & Ht & Hk).
  { eapply view_of_same_tables; [exact Hs|]. destruct HT as (?&?&?&?).
    by repeat split. }
  assert (interrupt g1 = interrupt g) as Hi by apply Hs.
  apply wp_bind, wp_gets. rewrite Hf. cbn [py_contains].
  unfold file_step. case_bool_decide as Hin.
  - rewrite decide_True by done. apply wp_modify. by repeat split.
  - rewrite decide_False by done. apply wp_bind. unfold wp at 1.
    rewrite (walk_PyDict f (v_db T)) by done.
    apply wp_bind. unfold wp at 1, fdb_add. cbn [fdb set_db]. rewrite Hf.
    apply wp_bind, wp_bind, wp_gets, wp_modify, wp_bind, wp_gets.
    cbn [save_time set_db set_fdb set_stdout]. rewrite Ht.
    unfold save_due. destruct (Qlt_le_dec _ _) as [Hlt|Hle].
    + apply wp_bind. unfold wp at 1. rewrite save_all_spec.
      apply wp_modify. cbn. rewrite Hk. by repeat split.
    + apply wp_ret. cbn. by repeat split.
Qed.

(** How many files of the loop are begun: the loop stops at the first
    check that finds the flag set; a SIGINT during file [i] sets it for
    the check of file [i + 1]. *)
Fixpoint begun_count (flag : bool) (i : nat) (files : list SrcFile) : nat :=
  match files with
  | [] => 0
  | _ :: rest => if flag then 0 else S (begun_count (w_sigint W i) (S i) rest)
  end.

(** The files a [parse] run begins, in order. *)
Definition files_begun (path : string) : list SrcFile :=
  let files := get_cpp_files W path in
  take (begun_count (w_sigint W 0) 1 files) files.

Fixpoint files_step (files : list SrcFile) (i : nat) (T : View) : View :=
  match files with
  | [] => T
  | f :: rest => files_step rest (S i) (file_step f i T)
  end.

Lemma deliver_sigint_spec i g :
  interrupt g = false →
  wp (deliver_sigint W i)
     (fun _ g' => interrupt g' = w_sigint W i ∧ db g' = db g ∧ fdb g' = fdb g
                  ∧ save_time g' = save_time g ∧ disk g' = disk g) g.
Proof.
  intros Hi. unfold deliver_sigint. destruct (w_sigint W i).
  - apply wp_bind, wp_modify, wp_modify. by repeat split.
  - apply wp_ret. by repeat split.
Qed.

Lemma process_files_spec files i t T g :
  view_of T g →
  wp (process_files args W files i t)
     (fun _ g' =>
        view_of (files_step (take (begun_count (interrupt g) i files) files) i T) g')
     g.
Proof.
  revert i T g. induction files as [|f rest IH]; intros i T g HT.
  - by apply wp_ret.
  - cbn [process_files begun_count]. apply wp_bind, wp_gets.
    destruct (interrupt g) eqn:Hi.
    + apply wp_modify. destruct HT as (?&?&?&?). by repeat split.
    + apply wp_bind. eapply wp_mono; [by apply deliver_sigint_spec|].
      intros [] g1 (Hi1 & Hd1 & Hf1 & Ht1 & Hk1). cbn beta.
      assert (view_of T g1) as HT1.
      { destruct HT as (?&?&?&?). repeat split; congruence. }
      apply wp_bind. eapply wp_mono; [by apply process_file_spec|].
      intros [] g2 [HT2 Hi2]. cbn beta.
      eapply wp_mono; [by apply IH|]. intros [] g3 HT3.
      rewrite Hi2, Hi1 in HT3. exact HT3.
Qed.

Lemma process_path_spec path T g :
  view_of T g →
  wp (process_path args W path)
     (fun _ g' =>
        let files := get_cpp_files W path in
        view_of (files_step (take (begun_count (interrupt g) 1 files) files) 1 T) g')
     g.
Proof.
  intros HT. unfold process_path. cbn zeta. case_bool_decide as Hn.
  - apply wp_modify. apply length_zero_iff_nil in Hn. rewrite Hn. cbn.
    destruct HT as (?&?&?&?). by repeat split.
  - apply wp_bind, wp_modify, wp_bind.
    eapply wp_mono; [apply process_files_spec|].
    + destruct HT as (?&?&?&?). by repeat split.
    + intros [] g1 HT1. cbn beta. apply wp_bind, wp_gets, wp_bind, wp_gets, wp_modify.
      destruct HT1 as (?&?&?&?). by repeat split.
Qed.

(** The [parse] branch of [dispatch], from typed tables. *)
Lemma dispatch_parse_spec restart path d s g :
  cmd args = CmdParse restart path →
  db g = PyDict d → fdb g = PySet s → interrupt g = false →
  wp (dispatch args W)
     (fun _ g' =>
        let T := files_step (files_begun path) 1
                            (mkView d s (w_start_time W) (disk g)) in
        db g' = PyDict (v_db T) ∧ fdb g' = PySet (v_fdb T)
        ∧ disk g' = saved (PyDict (v_db T)) (PySet (v_fdb T)) (v_disk T))
     g.
Proof.
  intros Hc Hd Hf Hi. unfold dispatch. rewrite Hc. apply wp_bind.
  eapply wp_mono; [by apply deliver_sigint_spec|].
  intros [] g1 (Hi1 & Hd1 & Hf1 & Ht1 & Hk1). cbn beta.
  apply wp_bind, wp_modify, wp_bind.
  eapply wp_mono.
  { apply (process_path_spec path (mkView d s (w_start_time W) (disk g))).
    repeat split; cbn; congruence. }
  intros [] g2 HT2. cbn beta zeta in *. cbn [interrupt set_save_time] in HT2.
  rewrite Hi1 in HT2. fold (files_begun path) in HT2.
  destruct HT2 as (Hd2 & Hf2 & Ht2 & Hk2).
  apply wp_bind. unfold wp at 1. rewrite save_all_spec.
  apply wp_bind, wp_gets, wp_modify. cbn. rewrite Hd2, Hf2, Hk2. done.
Qed.

(** [f] is a file of the list whose content is not known before the
    run and does not occur earlier in the list: the files that are
    indexed rather than skipped. *)
Definition first_seen (known : gset bytes) (files : list SrcFile) (f : SrcFile)
  : Prop :=
  ∃ pre post, files = pre ++ f :: post
    ∧ (file_digest f ∉ known)
    ∧ ∀ f', f' ∈ pre → file_digest f' ≠ file_digest f.

Lemma file_step_fdb f i T :
  v_fdb (file_step f i T) = {[file_digest f]} ∪ v_fdb T.
Proof.
  unfold file_step. case_decide as Hin; [set_solver|].
  by destruct (save_due i (v_save_time T)).
Qed.

Lemma file_step_db f i T :
  v_db (file_step f i T)
  = if decide (file_digest f ∈ v_fdb T) then v_db T else index_file f (v_db T).
Proof.
  unfold file_step. case_decide as Hin; [done|].
  by destruct (save_due i (v_save_time T)).
Qed.

Lemma files_step_fdb files i T :
  v_fdb (files_step files i T) = list_to_set (file_digest <$> files) ∪ v_fdb T.
Proof.
  revert i T. induction files as [|f rest IH]; intros i T; simpl.
  - set_solver.
  - rewrite IH, file_step_fdb. set_solver.
Qed.

Lemma file_step_entry f i T h n :
  entry (v_db (file_step f i T)) h n
  ↔ entry (v_db T) h n ∨ ((file_digest f ∉ v_fdb T) ∧ file_entry f h n).
Proof.
  rewrite file_step_db. case_decide as Hin.
  - naive_solver.
  - rewrite entry_index_file. naive_solver.
Qed.

Lemma first_seen_cons known f0 rest f :
  first_seen known (f0 :: rest) f
  ↔ (f = f0 ∧ file_digest f0 ∉ known)
    ∨ first_seen ({[file_digest f0]} ∪ known) rest f.
Proof.
  unfold first_seen. split.
  - intros (pre & post & Heq & Hk & Hpre). destruct pre as [|f1 pre].
    + injection Heq as <- <-. by left.
    + injection Heq as <- ->. right. exists pre, post. split; [done|]. split.
      * assert (file_digest f0 ≠ file_digest f) by (apply Hpre; left).
        set_solver.
      * intros f' Hf'. apply Hpre. by right.
  - intros [[-> Hk]|(pre & post & -> & Hk & Hpre)].
    + exists [], rest. split; [done|]. split; [done|].
      intros f' Hf'. by apply elem_of_nil in Hf'.
    + exists (f0 :: pre), post. split; [done|]. split; [set_solver|].
      intros f' Hf'. apply elem_of_cons in Hf' as [->|Hf']; [set_solver|].
      by apply Hpre.
Qed.

Lemma files_step_entry files i T h n :
  entry (v_db (files_step files i T)) h n
  ↔ entry (v_db T) h n
    ∨ ∃ f, first_seen (v_fdb T) files f ∧ file_entry f h n.
Proof.
  revert i T. induction files as [|f0 rest IH]; intros i T; simpl.
  - split; [eauto|]. intros [?|(f & (pre & post & Heq & _) & _)]; [done|].
    by destruct pre.
  - rewrite IH, file_step_entry, file_step_fdb. split.
    + intros [[?|[Hk He]]|(f & Hfs & He)]; [by left|right..].
      * exists f0. split; [|done]. apply first_seen_cons. by left.
      * exists f. split; [|done]. apply first_seen_cons. by right.
    + intros [?|(f & Hfs & He)]; [by left; left|].
      apply first_seen_cons in Hfs as [[-> Hk]|Hfs]; [by left; right|].
      right. eauto.
Qed.

Lemma file_step_nonempty f i T :
  nonempty_sets (v_db T) → nonempty_sets (v_db (file_step f i T)).
Proof.
  rewrite file_step_db. case_decide; [done|]. apply nonempty_index_file.
Qed.

Lemma files_step_nonempty files i T :
  nonempty_sets (v_db T) → nonempty_sets (v_db (files_step files i T)).
Proof.
  revert i T. induction files as [|f rest IH]; intros i T HT; simpl; [done|].
  by apply IH, file_step_nonempty.
Qed.

(** A file already known is skipped whole. *)
Lemma file_step_known f i T : file_digest f ∈ v_fdb T → file_step f i T = T.
Proof. intros Hin. unfold file_step. by rewrite decide_True. Qed.

Lemma files_step_known files i T :
  (∀ f, f ∈ files → file_digest f ∈ v_fdb T) → files_step files i T = T.
Proof.
  revert i. induction files as [|f rest IH]; intros i Hall; simpl; [done|].
  rewrite file_step_known by (apply Hall; left).
  apply IH. intros f' Hf'. apply Hall. by right.
Qed.

(** *** Loading and saving *)

Lemma load_or_disk default filename g g' :
  disk g' = disk g →
  value (load_or default filename g') = value (load_or default filename g).
Proof.
  intros Hk. unfold load_or. rewrite Hk.
  destruct (disk g !! filename) as [content|]; [|done].
  by destruct (pickle_loads content).
Qed.

Lemma load_or_value default filename g o :
  value (load_or default filename g) = Some o →
  load_or default filename g = Ok o g.
Proof.
  unfold load_or. destruct (disk g !! filename) as [content|].
  - destruct (pickle_loads content); [|done]. by intros [= ->].
  - by intros [= ->].
Qed.

Lemma load_or_written default filename o g :
  disk g !! filename = Some (pickle_dumps o) →
  load_or default filename g = Ok o g.
Proof. intros Hk. unfold load_or. by rewrite Hk, pickle_loads_dumps. Qed.

Lemma load_or_missing default filename g :
  disk g !! filename = None → load_or default filename g = Ok default g.
Proof. intros Hk. unfold load_or. by rewrite Hk. Qed.

Lemma saved_strdb d s files :
  strdb args ≠ filesdb args →
  saved d s files !! strdb args = Some (pickle_dumps d).
Proof.
  intros Hne. unfold saved.
  by rewrite lookup_insert_ne, lookup_insert_eq.
Qed.

Lemma saved_filesdb d s files :
  saved d s files !! filesdb args = Some (pickle_dumps s).
Proof. unfold saved. by rewrite lookup_insert_eq. Qed.

(** *** The start of the main block *)

Lemma load_all_restart path g :
  cmd args = CmdParse true path →
  load_all args g = Ok tt (set_fdb (PySet ∅) (set_db (PyDict ∅) g)).
Proof. intros Hc. unfold load_all. by rewrite Hc. Qed.

Lemma load_all_loaded g :
  (∀ path, cmd args ≠ CmdParse true path) →
  load_all args g =
    match load_db (strdb args) g with
    | Ok o1 _ =>
        match load_fdb (filesdb args) g with
        | Ok o2 _ => Ok tt (set_fdb o2 (set_db o1 g))
        | Raise e _ => Raise e (set_db o1 g)
        end
    | Raise e _ => Raise e g
    end.
Proof.
  intros Hc.
  assert (load_all args g =
    ((let* o := load_db (strdb args) in modify (set_db o)) ;;
     (let* o := load_fdb (filesdb args) in modify (set_fdb o))) g) as ->.
  { unfold load_all. destruct (cmd args) as [[] p| | | |]; try done.
    by destruct (Hc p). }
  unfold bind, load_db, load_fdb, load_or, modify.
  destruct (disk g !! strdb args) as [c1|];
    [destruct (pickle_loads c1); [|done]|];
    cbn [disk set_db];
    (destruct (disk g !! filesdb args) as [c2|];
      [by destruct (pickle_loads c2)|done]).
Qed.

(** The tables [load_all] binds to [db] and [fdb]. *)
Lemma load_all_spec restart path d s g :
  cmd args = CmdParse restart path →
  (if restart then d = ∅ ∧ s = ∅
   else value (load_db (strdb args) g) = Some (PyDict d)
        ∧ value (load_fdb (filesdb args) g) = Some (PySet s)) →
  load_all args g = Ok tt (set_fdb (PySet s) (set_db (PyDict d) g)).
Proof.
  intros Hc Hinit. destruct restart.
  - destruct Hinit as [-> ->]. by eapply load_all_restart.
  - destruct Hinit as [H1 H2]. rewrite load_all_loaded by (by rewrite Hc).
    apply load_or_value in H1, H2. unfold load_db, load_fdb.
    by rewrite H1, H2.
Qed.

(** A whole [parse] invocation, from tables that are a dictionary and
    a set. *)
Lemma main_parse_spec restart path d s files :
  cmd args = CmdParse restart path →
  (if restart then d = ∅ ∧ s = ∅
   else value (load_db (strdb args) (boot files)) = Some (PyDict d)
        ∧ value (load_fdb (filesdb args) (boot files)) = Some (PySet s)) →
  wp (main args W)
     (fun _ g' =>
        let T := files_step (files_begun path) 1
                            (mkView d s (w_start_time W) files) in
        db g' = PyDict (v_db T) ∧ fdb g' = PySet (v_fdb T)
        ∧ disk g' = saved (PyDict (v_db T)) (PySet (v_fdb T)) (v_disk T))
     (boot files).
Proof.
  intros Hc Hinit. unfold main. apply wp_bind. unfold wp at 1.
  rewrite (load_all_spec restart path d s) by done.
  eapply wp_mono; [by eapply (dispatch_parse_spec restart path d s)|].
  intros [] g' H. exact H.
Qed.

(** *** Which files are begun *)

Lemma begun_count_lookup flag i files k :
  k < begun_count flag i files
  ↔ k < length files ∧ flag = false ∧ ∀ j, j < k → w_sigint W (i + j) = false.
Proof.
  revert flag i k. induction files as [|f rest IH]; intros flag i k; simpl.
  - split; [lia|]. intros [? _]. lia.
  - destruct flag.
    + split; [lia|]. by intros (_ & ? & _).
    + destruct k as [|k].
      * split; [|lia]. intros _. split; [lia|]. split; [done|]. intros j ?. lia.
      * rewrite <- Nat.succ_lt_mono, IH. split.
        -- intros (? & H0 & Hj). split; [lia|]. split; [done|].
           intros [|j] ?; [by rewrite Nat.add_0_r|].
           replace (i + S j) with (S i + j) by lia. apply Hj. lia.
        -- intros (? & _ & Hj). split; [lia|]. split.
           ++ rewrite <- (Nat.add_0_r i). apply Hj. lia.
           ++ intros j ?. replace (S i + j) with (i + S j) by lia.
              apply Hj. lia.
Qed.


(** The two tables after the loop do not depend on the disk or the
    clock. *)
Lemma files_step_tables files i j T T' :
  v_db T = v_db T' → v_fdb T = v_fdb T' →
  v_db (files_step files i T) = v_db (files_step files j T')
  ∧ v_fdb (files_step files i T) = v_fdb (files_step files j T').
Proof.
  revert i j T T'. induction files as [|f rest IH]; intros i j T T' Hd Hf; simpl.
  - done.
  - apply IH.
    + rewrite !file_step_db, Hd, Hf. done.
    + by rewrite !file_step_fdb, Hf.
Qed.

End Run.

(** ** C2: indexing an unchanged file twice *)

(** C2.  From a dictionary and a set: [process_file] skips the file
    (tables and disk untouched) exactly when its digest is in the files
    database, and otherwise folds its literals into the index and adds
    its digest to the files database; a second call on the same file
    then completes and leaves index, files database and disk as the
    first call left them. *)
Theorem indexing_idempotent {xx : XXHash} {pk : Pickle}
    (args : Args) (W : World) (f : SrcFile) (i j t : nat)
    (d : index) (s : gset bytes) (g : Globals) :
  db g = PyDict d → fdb g = PySet s →
  ∃ g1 g2,
    process_file args W f i t g = Ok tt g1
    ∧ process_file args W f j t g1 = Ok tt g2
    ∧ (file_digest f ∈ s →
         db g1 = db g ∧ fdb g1 = fdb g ∧ disk g1 = disk g)
    ∧ (file_digest f ∉ s →
         ∃ d1, db g1 = PyDict d1
           ∧ (∀ h n, entry d1 h n ↔ entry d h n ∨ file_entry f h n)
           ∧ fdb g1 = PySet ({[file_digest f]} ∪ s))
    ∧ db g2 = db g1 ∧ fdb g2 = fdb g1 ∧ disk g2 = disk g1
    ∧ save_time g2 = save_time g1.
Proof.
  intros Hd Hf.
  pose (T := mkView d s (save_time g) (disk g)).
  assert (view_of T g) as HT by done.
  destruct (proj1 (wp_ok _ _ _) (process_file_spec args W f i t T g HT))
    as ([] & g1 & Hrun1 & HT1 & _).
  destruct (proj1 (wp_ok _ _ _)
              (process_file_spec args W f j t (file_step args W f i T) g1 HT1))
    as ([] & g2 & Hrun2 & HT2 & _).
  rewrite (file_step_known args W f j (file_step args W f i T)) in HT2
    by (rewrite file_step_fdb; set_solver).
  exists g1, g2. split; [done|]. split; [done|].
  destruct HT1 as (Hd1 & Hf1 & Ht1 & Hk1), HT2 as (Hd2 & Hf2 & Ht2 & Hk2).
  split; [|split].
  - intros Hin. rewrite (file_step_known args W f i T) in Hd1, Hf1, Hk1 by done.
    rewrite Hd1, Hf1, Hk1, Hd, Hf. done.
  - intros Hnin. exists (v_db (file_step args W f i T)).
    split; [done|]. split.
    + intros h n. rewrite file_step_entry. cbn [v_db v_fdb T]. naive_solver.
    + by rewrite Hf1, file_step_fdb.
  - repeat split; congruence.
Qed.

(** The same at the level of whole invocations: once a [parse] run has
    gone through all the files without being interrupted, a second
    [parse] run over the same files, whatever its clock and SIGINT
    schedule, completes and leaves both tables and the disk as the
    first run left them. *)
Lemma rerun_idempotent {xx : XXHash} {pk : Pickle}
    (args1 args2 : Args) (W1 W2 : World) (restart : bool) (path : string)
    (d : index) (s : gset bytes) (files : gmap string bytes) :
  cmd args1 = CmdParse restart path →
  cmd args2 = CmdParse false path →
  strdb args2 = strdb args1 → filesdb args2 = filesdb args1 →
  strdb args1 ≠ filesdb args1 →
  (if restart then d = ∅ ∧ s = ∅
   else value (load_db (strdb args1) (boot files)) = Some (PyDict d)
        ∧ value (load_fdb (filesdb args1) (boot files)) = Some (PySet s)) →
  get_cpp_files W2 path = get_cpp_files W1 path →
  (∀ j, j < length (get_cpp_files W1 path) → w_sigint W1 j = false) →
  ∃ g1 g2,
    run args1 W1 files = Ok tt g1
    ∧ run args2 W2 (disk g1) = Ok tt g2
    ∧ db g2 = db g1 ∧ fdb g2 = fdb g1 ∧ disk g2 = disk g1.
Proof.
  intros Hc1 Hc2 Hs Hf Hne Hinit Hfiles Hcalm.
  destruct (proj1 (wp_ok _ _ _)
              (main_parse_spec args1 W1 restart path d s files Hc1 Hinit))
    as ([] & g1 & Hrun1 & Hd1 & Hf1 & Hk1).
  cbn zeta in *.
  set (T1 := files_step args1 W1 (files_begun W1 path) 1
               (mkView d s (w_start_time W1) files)) in *.
  assert (files_begun W1 path = get_cpp_files W1 path) as Hall.
  { unfold files_begun. cbn zeta. apply take_ge.
    destruct (decide (length (get_cpp_files W1 path)
                      ≤ begun_count W1 (w_sigint W1 0) 1 (get_cpp_files W1 path)))
      as [|Hlt]; [done|].
    destruct (length (get_cpp_files W1 path)) as [|n] eqn:Hlen; [lia|].
    assert (n < begun_count W1 (w_sigint W1 0) 1 (get_cpp_files W1 path));
      [|lia].
    apply begun_count_lookup. rewrite Hlen. split; [lia|].
    split; [apply Hcalm; lia|]. intros j Hj. apply Hcalm. lia. }
  assert (value (load_db (strdb args2) (boot (disk g1))) = Some (PyDict (v_db T1))
          ∧ value (load_fdb (filesdb args2) (boot (disk g1)))
            = Some (PySet (v_fdb T1))) as Hinit2.
  { unfold load_db, load_fdb. rewrite Hs, Hf. split.
    - rewrite (load_or_written (PyDict ∅) (strdb args1) (PyDict (v_db T1))
                 (boot (disk g1))); [done|].
      cbn [disk boot]. rewrite Hk1. by apply saved_strdb.
    - rewrite (load_or_written (PySet ∅) (filesdb args1) (PySet (v_fdb T1))
                 (boot (disk g1))); [done|].
      cbn [disk boot]. rewrite Hk1. apply saved_filesdb. }
  destruct (proj1 (wp_ok _ _ _)
              (main_parse_spec args2 W2 false path (v_db T1) (v_fdb T1)
                 (disk g1) Hc2 Hinit2))
    as ([] & g2 & Hrun2 & Hd2 & Hf2 & Hk2).
  cbn zeta in *.
  rewrite (files_step_known args2 W2) in Hd2, Hf2, Hk2.
  2,3,4: (intros f Hin; cbn [v_fdb]; unfold T1; rewrite files_step_fdb, Hall;
          apply elem_of_union_l, elem_of_list_to_set, list_elem_of_fmap;
          exists f; split; [done|]; rewrite <- Hfiles;
          unfold files_begun in Hin; cbn zeta in Hin;
          by eapply subseteq_take).
  cbn [v_db v_fdb v_disk] in Hd2, Hf2, Hk2.
  exists g1, g2. split; [done|]. split; [done|].
  split; [congruence|]. split; [congruence|].
  rewrite Hk2, Hk1. unfold saved. rewrite Hs, Hf.
  apply map_eq. intros p. rewrite !lookup_insert.
  repeat case_decide; congruence.
Qed.

(** ** C5: parse --restart *)

(** C5.  With [--restart], and two distinct database paths, the run
    completes, and the tables it leaves in memory and on disk are the
    same whatever the disk held before: the files database is the set
    of digests of the files begun in this run, and a name is recorded
    under a digest exactly when a file indexed in this run has a
    function of that name holding a qualifying literal with that
    digest. *)
Theorem restart_fresh_index {xx : XXHash} {pk : Pickle}
    (args : Args) (W : World) (path : string) :
  cmd args = CmdParse true path →
  strdb args ≠ filesdb args →
  ∃ D F,
    (∀ files, ∃ g',
        run args W files = Ok tt g'
        ∧ db g' = PyDict D ∧ fdb g' = PySet F
        ∧ load_db (strdb args) g' = Ok (PyDict D) g'
        ∧ load_fdb (filesdb args) g' = Ok (PySet F) g')
    ∧ F = list_to_set (file_digest <$> files_begun W path)
    ∧ (∀ h n, entry D h n ↔
         ∃ f, first_seen ∅ (files_begun W path) f ∧ file_entry f h n)
    ∧ nonempty_sets D.
Proof.
  intros Hc Hne.
  pose (T0 := mkView ∅ ∅ (w_start_time W) ∅).
  exists (v_db (files_step args W (files_begun W path) 1 T0)),
         (v_fdb (files_step args W (files_begun W path) 1 T0)).
  split; [|split; [|split]].
  - intros files.
    destruct (proj1 (wp_ok _ _ _)
                (main_parse_spec args W true path ∅ ∅ files Hc (conj eq_refl eq_refl)))
      as ([] & g' & Hrun & Hd & Hf & Hk).
    cbn zeta in *.
    destruct (files_step_tables args W (files_begun W path) 1 1
                (mkView ∅ ∅ (w_start_time W) files) T0)
      as [HD HF]; [done|done|].
    rewrite HD in Hd, Hk. rewrite HF in Hf, Hk.
    exists g'. split; [done|]. split; [done|]. split; [done|]. split.
    + apply load_or_written. rewrite Hk. by apply saved_strdb.
    + apply load_or_written. rewrite Hk. by apply saved_filesdb.
  - rewrite files_step_fdb. cbn [v_fdb T0]. set_solver.
  - intros h n. rewrite files_step_entry. cbn [v_db v_fdb T0]. split.
    + intros [(s & Hs & _)|?]; [|done]. by rewrite lookup_empty in Hs.
    + eauto.
  - apply files_step_nonempty. cbn [v_db T0]. intros h s Hs.
    by rewrite lookup_empty in Hs.
Qed.

(** ** C6: interruption between files *)


(** ** Runs that index nothing, and queries *)

Section Commands.
Context {xx : XXHash} {pk : Pickle}.
Variable args : Args.
Variable W : World.

Lemma get_cpp_files_missing path :
  w_stat W path = NoSuchPath → get_cpp_files W path = [].
Proof. intros Hs. unfold get_cpp_files. by rewrite Hs. Qed.

(** With no file to process, the [parse] branch goes straight to
    [save_all], whatever the two tables are. *)
Lemma dispatch_parse_nofiles restart path g :
  cmd args = CmdParse restart path →
  get_cpp_files W path = [] →
  ∃ g', dispatch args W g = Ok tt g'
    ∧ db g' = db g ∧ fdb g' = fdb g
    ∧ disk g' = saved args (db g) (fdb g) (disk g).
Proof.
  intros Hc Hnil. unfold dispatch, process_path, deliver_sigint.
  rewrite Hc, Hnil. cbn [length bool_decide decide_rel].
  destruct (w_sigint W 0); eexists; (split; [reflexivity|]); by cbn.
Qed.

(** The [find] branch on a dictionary. *)
Lemma dispatch_find str d g :
  cmd args = CmdFind str →
  db g = PyDict d →
  dispatch args W g =
    Ok tt (set_stdout
             (stdout g ++ [match d !! get_hash str with
                           | Some functions => MsgFoundIn functions
                           | None => MsgNotFound
                           end]) g).
Proof.
  intros Hc Hd. unfold dispatch. rewrite Hc. unfold bind, gets.
  rewrite Hd. cbn [py_contains].
  destruct (d !! get_hash str) as [functions|] eqn:Hl.
  - rewrite bool_decide_eq_true_2 by (apply elem_of_dom; eauto).
    unfold db_getitem. by rewrite Hd, Hl.
  - by rewrite bool_decide_eq_false_2 by (by apply not_elem_of_dom).
Qed.

Lemma literals_none k n tokens :
  Forall (fun token => qualifies token = false) tokens →
  literals (mkCursor k n tokens) = [].
Proof.
  intros Hall. unfold literals. cbn [get_tokens].
  induction Hall as [|token tokens Hq _ IH]; [done|].
  cbn [List.filter]. by rewrite Hq.
Qed.

Lemma index_nodes_other nodes d :
  Forall (fun node => cur_kind node ≠ FUNCTION_DECL) nodes →
  foldl (fun d node => index_node node d) d nodes = d.
Proof.
  intros Hall. induction Hall as [|node nodes Hk _ IH]; [done|].
  cbn [foldl]. unfold index_node at 2. by rewrite decide_False.
Qed.

End Commands.

(** ** C9: saving and loading *)

(** C9.  Whatever is saved under a path loads back from it, with
    either loader; after [save_all] on two distinct paths the index
    and the files database load back as they are in memory (equality of
    [gmap]s and [gset]s is equality of contents, whatever the order of
    insertion); a path with no file loads as the empty dictionary
    ([load_db]) or the empty set ([load_fdb]). *)
Theorem persistence_round_trip {pk : Pickle} (args : Args) (g : Globals) :
  (∀ o filename, ∃ g',
      save_db o filename g = Ok tt g'
      ∧ load_db filename g' = Ok o g' ∧ load_fdb filename g' = Ok o g')
  ∧ (strdb args ≠ filesdb args → ∃ g',
      save_all args g = Ok tt g'
      ∧ db g' = db g ∧ fdb g' = fdb g
      ∧ load_db (strdb args) g' = Ok (db g) g'
      ∧ load_fdb (filesdb args) g' = Ok (fdb g) g')
  ∧ (∀ filename, disk g !! filename = None →
      load_db filename g = Ok (PyDict ∅) g
      ∧ load_fdb filename g = Ok (PySet ∅) g).
Proof.
  split; [|split].
  - intros o filename. eexists. split; [reflexivity|].
    split; apply load_or_written; cbn; by rewrite lookup_insert_eq.
  - intros Hne. eexists. split; [apply save_all_spec|].
    split; [done|]. split; [done|].
    split; apply load_or_written; cbn [disk set_disk].
    + by apply saved_strdb.
    + by apply saved_filesdb.
  - intros filename Hk. split; by apply load_or_missing.
Qed.

(** ** C3: a [parse] run with nothing to index *)

(** C3 (as amended).  When the path does not exist or holds no
    qualifying file, and the two database paths are distinct: a run
    without [--restart] leaves each table loading exactly as it loaded
    before the run, and a run with [--restart] leaves the empty
    dictionary and the empty set on disk. *)
Theorem input_error_persisted {xx : XXHash} {pk : Pickle}
    (args : Args) (W : World) (restart : bool) (path : string)
    (files : gmap string bytes) :
  cmd args = CmdParse restart path →
  w_stat W path = NoSuchPath ∨ get_cpp_files W path = [] →
  strdb args ≠ filesdb args →
  let g' := final (run args W files) in
  if restart
  then load_db (strdb args) g' = Ok (PyDict ∅) g'
       ∧ load_fdb (filesdb args) g' = Ok (PySet ∅) g'
  else value (load_db (strdb args) g') = value (load_db (strdb args) (boot files))
       ∧ value (load_fdb (filesdb args) g')
         = value (load_fdb (filesdb args) (boot files)).
Proof.
  intros Hc Hin Hne.
  assert (get_cpp_files W path = []) as Hnil.
  { destruct Hin as [Hm|Hn]; [by apply get_cpp_files_missing|done]. }
  cbn zeta. unfold run, main, bind. destruct restart.
  - rewrite (load_all_restart args path) by done.
    destruct (dispatch_parse_nofiles args W true path
                (set_fdb (PySet ∅) (set_db (PyDict ∅) (boot files))) Hc Hnil)
      as (g' & -> & _ & _ & Hk).
    cbn [final]. split; apply load_or_written; rewrite Hk.
    + by apply saved_strdb.
    + by apply saved_filesdb.
  - rewrite load_all_loaded by (by rewrite Hc).
    destruct (load_db (strdb args) (boot files)) as [o1 g1|e g1] eqn:H1;
      [|cbn [final]; by rewrite H1].
    destruct (load_fdb (filesdb args) (boot files)) as [o2 g2|e g2] eqn:H2.
    + destruct (dispatch_parse_nofiles args W false path
                  (set_fdb o2 (set_db o1 (boot files))) Hc Hnil)
        as (g' & -> & _ & _ & Hk).
      cbn [final]. cbn [db fdb set_db set_fdb] in Hk.
      unfold load_db, load_fdb.
      rewrite (load_or_written (PyDict ∅) (strdb args) o1 g')
        by (rewrite Hk; by apply saved_strdb).
      rewrite (load_or_written (PySet ∅) (filesdb args) o2 g')
        by (rewrite Hk; by apply saved_filesdb).
      done.
    + cbn [final]. unfold load_db, load_fdb in *.
      rewrite !(load_or_disk _ _ (boot files) (set_db o1 (boot files))) by done.
      by rewrite H1, H2.
Qed.

(** ** C7: indexing one function and querying its literal *)

(** C7.  A source file whose only function declaration, [fname], holds
    the literal ["0123456789AB"] in quotes (a spelling of 14
    characters) and no other qualifying literal is indexed from an
    empty index, with no SIGINT before the file: the index is then the
    single entry from the digest of [0123456789AB] to the set holding
    [fname], and a later [find 0123456789AB] on the same database files
    prints that set. *)
Theorem end_to_end_find {xx : XXHash} {pk : Pickle}
    (args : Args) (W W' : World) (restart : bool) (path fname : string)
    (src : SrcFile) (before after : list Cursor) (pre post : list Token)
    (savetime' : Z) (files : gmap string bytes) :
  cmd args = CmdParse restart path →
  strdb args ≠ filesdb args →
  restart = true ∨ (files !! strdb args = None ∧ files !! filesdb args = None) →
  w_stat W path = IsFile src →
  sf_suffix src = ".c" ∨ sf_suffix src = ".cpp" →
  sf_walk_preorder src =
    before
    ++ mkCursor FUNCTION_DECL fname
         (pre ++ mkToken LITERAL (quoted "0123456789AB") :: post)
    :: after →
  Forall (fun node => cur_kind node ≠ FUNCTION_DECL) before →
  Forall (fun node => cur_kind node ≠ FUNCTION_DECL) after →
  Forall (fun token => qualifies token = false) pre →
  Forall (fun token => qualifies token = false) post →
  w_sigint W 0 = false →
  ∃ g1 g2,
    run args W files = Ok tt g1
    ∧ db g1 = PyDict {[xxh64_digest "0123456789AB" := {[fname]}]}
    ∧ run (mkArgs (strdb args) (filesdb args) savetime'
                  (CmdFind "0123456789AB")) W' (disk g1) = Ok tt g2
    ∧ stdout g2 = [MsgFoundIn {[fname]}]
    ∧ len (quoted "0123456789AB") = 14.
Proof.
  intros Hc Hne Hempty Hstat Hsuf Hast Hbefore Hafter Hpre Hpost Hsig.
  assert (if restart then (∅ : index) = ∅ ∧ (∅ : gset bytes) = ∅
          else value (load_db (strdb args) (boot files)) = Some (PyDict ∅)
               ∧ value (load_fdb (filesdb args) (boot files)) = Some (PySet ∅))
    as Hinit.
  { destruct restart; [done|]. destruct Hempty as [?|[H1 H2]]; [done|].
    unfold load_db, load_fdb. by rewrite !load_or_missing. }
  destruct (proj1 (wp_ok _ _ _)
              (main_parse_spec args W restart path ∅ ∅ files Hc Hinit))
    as ([] & g1 & Hrun & Hd & Hf & Hk).
  cbn zeta in *.
  assert (files_begun W path = [src]) as Hbegun.
  { unfold files_begun, get_cpp_files. rewrite Hstat.
    rewrite bool_decide_eq_true_2
      by (destruct Hsuf as [-> | ->]; set_solver).
    cbn. by rewrite Hsig. }
  assert (index_file src ∅ = {[xxh64_digest "0123456789AB" := {[fname]}]})
    as Hindex.
  { unfold index_file. rewrite Hast, foldl_app. cbn [foldl].
    rewrite (index_nodes_other before) by done.
    rewrite (index_nodes_other after) by done.
    unfold index_node. rewrite decide_True by done.
    rewrite literals_app.
    change (mkToken LITERAL (quoted "0123456789AB") :: post)
      with ([mkToken LITERAL (quoted "0123456789AB")] ++ post).
    rewrite literals_app.
    rewrite (literals_none _ _ pre), (literals_none _ _ post) by done.
    change (literals (mkCursor FUNCTION_DECL fname
                        [mkToken LITERAL (quoted "0123456789AB")]))
      with ["0123456789AB"].
    cbn [app foldl cur_spelling]. unfold merge_dict.
    by rewrite lookup_empty. }
  rewrite Hbegun in Hd, Hf, Hk. cbn [files_step] in Hd, Hf, Hk.
  rewrite file_step_db in Hd, Hk. cbn [v_db v_fdb] in Hd, Hk.
  rewrite decide_False, Hindex in Hd, Hk by set_solver.
  pose (args' := mkArgs (strdb args) (filesdb args) savetime'
                        (CmdFind "0123456789AB")).
  assert (load_db (strdb args') (boot (disk g1))
          = Ok (PyDict {[xxh64_digest "0123456789AB" := {[fname]}]})
               (boot (disk g1))) as Hl1.
  { apply load_or_written. cbn [disk boot strdb args'].
    rewrite Hk. by apply saved_strdb. }
  assert (∃ o, load_fdb (filesdb args') (boot (disk g1))
               = Ok o (boot (disk g1))) as [o Hl2].
  { eexists. apply load_or_written. cbn [disk boot filesdb args'].
    rewrite Hk. by apply saved_filesdb. }
  eexists g1, _. split; [done|]. split; [done|]. split; [|split].
  - unfold run, main, bind. fold args'.
    rewrite load_all_loaded by done. rewrite Hl1, Hl2.
    apply (dispatch_find args' W' "0123456789AB"); done.
  - cbn [stdout set_stdout boot app]. unfold get_hash.
    by rewrite lookup_singleton_eq.
  - reflexivity.
Qed.

(** ** C10: no key of the index maps to the empty set *)

(** A dictionary is in order when none of its sets is empty; nothing
    is asked of a set of digests. *)
Definition pyobj_ok (o : pyobj) : Prop :=
  match o with
  | PyDict d => nonempty_sets d
  | PySet _ => True
  end.

Section Invariant.
Context {xx : XXHash} {pk : Pickle}.

(** Every database file that can be loaded holds an object in order. *)
Definition disk_ok (files : gmap string bytes) : Prop :=
  ∀ filename content o,
    files !! filename = Some content → pickle_loads content = Some o →
    pyobj_ok o.

Definition inv (g : Globals) : Prop :=
  pyobj_ok (db g) ∧ pyobj_ok (fdb g) ∧ disk_ok (disk g).

(** [m] keeps the invariant however it ends, and its value satisfies
    [Q]. *)
Definition keeps {A} (m : M A) (Q : A → Prop) : Prop :=
  ∀ g, inv g → inv (final (m g)) ∧ ∀ a, value (m g) = Some a → Q a.

Lemma keeps_ret {A} (a : A) (Q : A → Prop) : Q a → keeps (ret a) Q.
Proof. intros HQ g Hg. split; [done|]. by intros ? [= <-]. Qed.

Lemma keeps_bind {A B} (m : M A) (k : A → M B) (Q : A → Prop) (R : B → Prop) :
  keeps m Q → (∀ a, Q a → keeps (k a) R) → keeps (bind m k) R.
Proof.
  intros Hm Hk g Hg. unfold bind. destruct (Hm g Hg) as [Hi Hv].
  destruct (m g) as [a g'|e g'].
  - apply Hk; [by apply Hv|exact Hi].
  - split; [exact Hi|]. by intros a [=].
Qed.

Lemma keeps_mono {A} (m : M A) (Q Q' : A → Prop) :
  keeps m Q → (∀ a, Q a → Q' a) → keeps m Q'.
Proof. intros Hm HQ g Hg. destruct (Hm g Hg). split; [done|]. eauto. Qed.

Lemma keeps_gets {A} (f : Globals → A) (Q : A → Prop) :
  (∀ g, inv g → Q (f g)) → keeps (gets f) Q.
Proof. intros HQ g Hg. split; [done|]. intros ? [= <-]. by apply HQ. Qed.

Lemma keeps_modify (f : Globals → Globals) :
  (∀ g, inv g → inv (f g)) → keeps (modify f) (fun _ => True).
Proof. intros Hf g Hg. split; [by apply Hf|done]. Qed.

Lemma keeps_echo (m : Msg) : keeps (echo m) (fun _ => True).
Proof. by apply keeps_modify. Qed.

Lemma keeps_for_each {A} (l : list A) (body : A → M unit) :
  (∀ x, keeps (body x) (fun _ => True)) →
  keeps (for_each l body) (fun _ => True).
Proof.
  intros Hbody. induction l as [|x l IH]; simpl.
  - by apply keeps_ret.
  - eapply keeps_bind; [apply Hbody|]. by intros _ _.
Qed.

Lemma keeps_db_setitem h n : keeps (db_setitem h {[n]}) (fun _ => True).
Proof.
  intros g (Hd & Hf & Hk). split; [|done]. unfold db_setitem.
  destruct (db g) as [d|s] eqn:Hdb; [|by rewrite <- Hdb in Hd].
  split; [|done]. cbn. intros h' s'. rewrite lookup_insert.
  case_decide; [|by apply Hd]. intros [= <-]. set_solver.
Qed.

Lemma keeps_db_getitem_add h n : keeps (db_getitem_add h n) (fun _ => True).
Proof.
  intros g (Hd & Hf & Hk). split; [|done]. unfold db_getitem_add.
  destruct (db g) as [d|s] eqn:Hdb; [|by rewrite <- Hdb in Hd].
  destruct (d !! h) as [s|] eqn:Hl; [|by rewrite <- Hdb in Hd].
  split; [|done]. cbn. intros h' s'. rewrite lookup_insert.
  case_decide; [|by apply Hd]. intros [= <-]. set_solver.
Qed.

Lemma keeps_fdb_add fhash : keeps (fdb_add fhash) (fun _ => True).
Proof.
  intros g (Hd & Hf & Hk). split; [|done]. unfold fdb_add.
  destruct (fdb g) as [d|s] eqn:Hfdb; [by rewrite <- Hfdb in Hf|done].
Qed.

Lemma keeps_merge h n : keeps (merge h n) (fun _ => True).
Proof.
  unfold merge. eapply keeps_bind; [by apply (keeps_gets _ (fun _ => True))|].
  intros present _. destruct present; cbn [negb].
  - apply keeps_db_getitem_add.
  - apply keeps_db_setitem.
Qed.

Lemma keeps_process_node node : keeps (process_node node) (fun _ => True).
Proof.
  unfold process_node. case_decide; [|by apply keeps_ret].
  apply keeps_for_each. intros s. apply keeps_merge.
Qed.

Lemma keeps_hash_blocks blocks hasher :
  keeps (hash_blocks hasher blocks) (fun _ => True).
Proof.
  revert hasher. induction blocks as [|block rest IH]; intros hasher.
  - by apply keeps_ret.
  - destruct block as [|b block]; [by apply keeps_ret|].
    cbn [hash_blocks]. eapply keeps_bind; [by apply keeps_modify|].
    intros _ _. apply IH.
Qed.

Lemma keeps_get_file_hash_xx f : keeps (get_file_hash_xx f) (fun _ => True).
Proof.
  unfold get_file_hash_xx. eapply keeps_bind; [by apply keeps_modify|].
  intros _ _. eapply keeps_bind; [apply keeps_hash_blocks|].
  intros hasher _. by apply keeps_ret.
Qed.

Lemma disk_ok_insert filename o files :
  pyobj_ok o → disk_ok files → disk_ok (<[filename := pickle_dumps o]> files).
Proof.
  intros Ho Hk filename' content o'. rewrite lookup_insert. case_decide.
  - intros [= <-]. rewrite pickle_loads_dumps. by intros [= <-].
  - apply Hk.
Qed.

Lemma keeps_save_db o filename :
  pyobj_ok o → keeps (save_db o filename) (fun _ => True).
Proof.
  intros Ho. apply keeps_modify. intros g (Hd & Hf & Hk).
  split; [done|]. split; [done|]. by apply disk_ok_insert.
Qed.

Lemma keeps_save_all args : keeps (save_all args) (fun _ => True).
Proof.
  unfold save_all. eapply keeps_bind.
  - eapply keeps_bind; [apply (keeps_gets db pyobj_ok); by intros g (?&?&?)|].
    intros o Ho. by apply keeps_save_db.
  - intros _ _.
    eapply keeps_bind; [apply (keeps_gets fdb pyobj_ok); by intros g (?&?&?)|].
    intros o Ho. by apply keeps_save_db.
Qed.

Lemma keeps_load_or default filename :
  pyobj_ok default → keeps (load_or default filename) pyobj_ok.
Proof.
  intros Hdef g (Hd & Hf & Hk). unfold load_or.
  destruct (disk g !! filename) as [content|] eqn:Hl.
  - destruct (pickle_loads content) as [o|] eqn:Ho; (split; [done|]).
    + intros ? [= <-]. by eapply Hk.
    + by intros ? [=].
  - split; [done|]. by intros ? [= <-].
Qed.

Lemma keeps_process_file args W f i t :
  keeps (process_file args W f i t) (fun _ => True).
Proof.
  unfold process_file. eapply keeps_bind; [apply keeps_echo|]. intros _ _.
  eapply keeps_bind; [apply keeps_get_file_hash_xx|]. intros fhash _.
  eapply keeps_bind; [by apply (keeps_gets _ (fun _ => True))|].
  intros known _. destruct known; [apply keeps_echo|].
  eapply keeps_bind; [apply keeps_for_each, keeps_process_node|]. intros _ _.
  eapply keeps_bind; [apply keeps_fdb_add|]. intros _ _.
  eapply keeps_bind.
  { eapply keeps_bind; [by apply (keeps_gets _ (fun _ => True))|].
    intros n _. apply keeps_echo. }
  intros _ _. eapply keeps_bind; [by apply (keeps_gets _ (fun _ => True))|].
  intros saved _. destruct (Qlt_le_dec _ _); [|by apply keeps_ret].
  eapply keeps_bind; [apply keeps_save_all|]. intros _ _.
  by apply keeps_modify.
Qed.

Lemma keeps_deliver_sigint W i : keeps (deliver_sigint W i) (fun _ => True).
Proof.
  unfold deliver_sigint. destruct (w_sigint W i); [|by apply keeps_ret].
  eapply keeps_bind; [apply keeps_echo|]. intros _ _. by apply keeps_modify.
Qed.

Lemma keeps_process_files args W files i t :
  keeps (process_files args W files i t) (fun _ => True).
Proof.
  revert i. induction files as [|f rest IH]; intros i.
  - by apply keeps_ret.
  - cbn [process_files].
    eapply keeps_bind; [by apply (keeps_gets _ (fun _ => True))|].
    intros stop _. destruct stop; [apply keeps_echo|].
    eapply keeps_bind; [apply keeps_deliver_sigint|]. intros _ _.
    eapply keeps_bind; [apply keeps_process_file|]. intros _ _. apply IH.
Qed.

Lemma keeps_process_path args W path :
  keeps (process_path args W path) (fun _ => True).
Proof.
  unfold process_path. cbn zeta. case_bool_decide; [apply keeps_echo|].
  eapply keeps_bind; [apply keeps_echo|]. intros _ _.
  eapply keeps_bind; [apply keeps_process_files|]. intros _ _.
  eapply keeps_bind; [by apply (keeps_gets _ (fun _ => True))|]. intros n _.
  eapply keeps_bind; [by apply (keeps_gets _ (fun _ => True))|]. intros sz _.
  apply keeps_echo.
Qed.

Lemma keeps_set_db o : pyobj_ok o → keeps (modify (set_db o)) (fun _ => True).
Proof. intros Ho. apply keeps_modify. by intros g (?&?&?). Qed.

Lemma keeps_set_fdb o : pyobj_ok o → keeps (modify (set_fdb o)) (fun _ => True).
Proof. intros Ho. apply keeps_modify. by intros g (?&?&?). Qed.

Lemma nonempty_sets_empty : nonempty_sets ∅.
Proof. intros h s Hs. by rewrite lookup_empty in Hs. Qed.

Lemma keeps_load_all args : keeps (load_all args) (fun _ => True).
Proof.
  assert (keeps ((let* o := load_db (strdb args) in modify (set_db o)) ;;
                 (let* o := load_fdb (filesdb args) in modify (set_fdb o)))
                (fun _ => True)) as Hload.
  { eapply keeps_bind.
    - eapply keeps_bind; [apply keeps_load_or, nonempty_sets_empty|].
      intros o Ho. by apply keeps_set_db.
    - intros _ _. eapply keeps_bind; [by apply keeps_load_or|].
      intros o Ho. by apply keeps_set_fdb. }
  unfold load_all. destruct (cmd args) as [[] p| | | |]; try exact Hload.
  eapply keeps_bind; [apply keeps_set_db, nonempty_sets_empty|].
  intros _ _. by apply keeps_set_fdb.
Qed.

Lemma keeps_db_size : keeps (let* n := gets (fun g => py_len (db g)) in
                             echo (MsgDbSize n)) (fun _ => True).
Proof.
  eapply keeps_bind; [by apply (keeps_gets _ (fun _ => True))|].
  intros n _. apply keeps_echo.
Qed.

Lemma keeps_dispatch args W : keeps (dispatch args W) (fun _ => True).
Proof.
  unfold dispatch. destruct (cmd args) as [r p|str| | |].
  - eapply keeps_bind; [apply keeps_deliver_sigint|]. intros _ _.
    eapply keeps_bind; [by apply keeps_modify|]. intros _ _.
    eapply keeps_bind; [apply keeps_process_path|]. intros _ _.
    eapply keeps_bind; [apply keeps_save_all|]. intros _ _.
    apply keeps_db_size.
  - eapply keeps_bind; [by apply (keeps_gets _ (fun _ => True))|].
    intros present _. destruct present; [|apply keeps_echo].
    eapply keeps_bind with (Q := fun _ => True).
    + intros g Hg. unfold db_getitem. destruct (db g) as [d|s]; [|done].
      by destruct (d !! get_hash str).
    + intros functions _. apply keeps_echo.
  - eapply keeps_bind.
    + eapply keeps_bind with (Q := fun _ => True).
      * intros g Hg. unfold db_items. by destruct (db g).
      * intros items _. apply keeps_for_each. intros kv. apply keeps_echo.
    + intros _ _. eapply keeps_bind; [apply keeps_echo|]. intros _ _.
      apply keeps_db_size.
  - apply keeps_db_size.
  - apply keeps_echo.
Qed.

Lemma keeps_main args W : keeps (main args W) (fun _ => True).
Proof.
  unfold main. eapply keeps_bind; [apply keeps_load_all|].
  intros _ _. apply keeps_dispatch.
Qed.

Lemma inv_boot files : disk_ok files → inv (boot files).
Proof. intros Hk. split; [apply nonempty_sets_empty|]. by split. Qed.

End Invariant.

(** The disks that invocations of the script can produce, starting
    with no database file. *)
Inductive reachable_disk {xx : XXHash} {pk : Pickle}
  : gmap string bytes → Prop :=
  | reachable_fresh : reachable_disk ∅
  | reachable_run args W files :
      reachable_disk files →
      reachable_disk (disk (final (run args W files))).

Lemma reachable_disk_ok {xx : XXHash} {pk : Pickle} files :
  reachable_disk files → disk_ok files.
Proof.
  induction 1 as [|args W files _ IH].
  - intros filename content o Hl. by rewrite lookup_empty in Hl.
  - apply (keeps_main args W (boot files)), inv_boot, IH.
Qed.

(** C10.  On every disk reachable by invocations of the script, and
    for every further invocation, however it ends: the index in memory
    has no empty set, and neither has any dictionary that loads from a
    file of the disk it leaves; and one [merge] on an index without
    empty sets leaves an index without empty sets. *)
Theorem index_sets_nonempty {xx : XXHash} {pk : Pickle}
    (files : gmap string bytes) (args : Args) (W : World) :
  reachable_disk files →
  let g := final (run args W files) in
  (∀ d, db g = PyDict d → nonempty_sets d)
  ∧ (∀ filename d,
       value (load_db filename g) = Some (PyDict d) → nonempty_sets d)
  ∧ (∀ h n d d', nonempty_sets d →
       db (final (merge h n (set_db (PyDict d) g))) = PyDict d' →
       nonempty_sets d').
Proof.
  intros Hreach. cbn zeta.
  destruct (keeps_main args W (boot files)) as [(Hd & Hf & Hk) _].
  { by apply inv_boot, reachable_disk_ok. }
  fold (run args W files) in Hd, Hf, Hk.
  split; [|split].
  - intros d Hdb. by rewrite Hdb in Hd.
  - intros filename d Hl.
    assert (inv (final (run args W files))) as Hinv by done.
    destruct (keeps_load_or (PyDict ∅) filename nonempty_sets_empty _ Hinv)
      as [_ Hv].
    apply (Hv (PyDict d)). exact Hl.
  - intros h n d d' Hne Hdb.
    rewrite (merge_PyDict h n d) in Hdb by done.
    injection Hdb as <-. by apply nonempty_merge_dict.
Qed.

(** ** C8: a save seen from the file system *)

(** [save_db] opens the file for writing, which creates it or empties
    it, and [pickle.dump] then writes the bytes of the object in order;
    nothing is written elsewhere first and moved into place.  A process
    that stops during [save_db] stops before the file is opened, or
    after it is opened with some of the bytes written. *)
Inductive StopPoint :=
  | BeforeOpen
  | AfterOpen (written : nat).

(** The disk a stopped [save_db] leaves. *)
Definition save_db_stopped {pk : Pickle} (o : pyobj) (filename : string)
    (stop : StopPoint) (files : gmap string bytes) : gmap string bytes :=
  match stop with
  | BeforeOpen => files
  | AfterOpen written => <[filename := take written (pickle_dumps o)]> files
  end.

(** C8 (as amended).  A save that is not begun leaves the disk as it
    was; a save stopped after the file is opened leaves in it the
    bytes written so far, a prefix of the pickled table, and touches
    no other file; a save that writes all the bytes leaves what
    [save_db] leaves, and the table loads back; a save stopped right
    after the file is opened leaves a file that loads neither as the
    table it held nor as the table being saved, unless one of them
    loads from the empty file. *)
Theorem save_in_place {pk : Pickle} (o : pyobj) (filename : string)
    (g : Globals) (written : nat) :
  let files' := save_db_stopped o filename (AfterOpen written) (disk g) in
  save_db_stopped o filename BeforeOpen (disk g) = disk g
  ∧ files' !! filename = Some (take written (pickle_dumps o))
  ∧ (∀ other, other ≠ filename → files' !! other = disk g !! other)
  ∧ (length (pickle_dumps o) ≤ written →
       files' = disk (final (save_db o filename g))
       ∧ load_db filename (set_disk files' g) = Ok o (set_disk files' g))
  ∧ (∀ old, written = 0 →
       pickle_loads [] ≠ Some old → pickle_loads [] ≠ Some o →
       value (load_db filename (set_disk files' g)) ≠ Some old
       ∧ value (load_db filename (set_disk files' g)) ≠ Some o).
Proof.
  cbn zeta. unfold save_db_stopped.
  split; [done|]. split; [by rewrite lookup_insert_eq|].
  split; [by intros other Hne; rewrite lookup_insert_ne|]. split.
  - intros Hlen. rewrite take_ge by done. split; [done|].
    apply load_or_written. cbn. by rewrite lookup_insert_eq.
  - intros old -> Hold Hnew. rewrite take_0. unfold load_db, load_or.
    cbn [disk set_disk]. rewrite lookup_insert_eq.
    destruct (pickle_loads []) as [o'|]; cbn; split; congruence.
Qed.

(** * A concrete run

    One source file [a.c] whose function [f] holds one qualifying
    literal, indexed with the reference digest and codec. *)

Import Reference.

Definition node_f : Cursor :=
  mkCursor FUNCTION_DECL "f"
    [mkToken IDENTIFIER "puts"; mkToken LITERAL (quoted "0123456789AB")].

Definition src_a : SrcFile :=
  mkSrcFile "a.c" ".c" [[Byte.x61]]
    [mkCursor (OTHER_CURSOR 350) "a.c" []; node_f].

(** No SIGINT, one second per file. *)
Definition calm : World :=
  mkWorld (fun path => if decide (path = "a.c") then IsFile src_a else NoSuchPath)
          0%Q (fun _ => 1%Q) (fun _ => 2%Q) (fun _ => false).


Definition parse_a (restart : bool) : Args :=
  mkArgs "str2func.db" "fh.db" 1800 (CmdParse restart "a.c").

Definition parse_missing (restart : bool) : Args :=
  mkArgs "str2func.db" "fh.db" 1800 (CmdParse restart "missing").

(** The database files after [a.c] has been indexed once. *)
Definition indexed : gmap string bytes :=
  disk (final (run (parse_a false) calm ∅)).

Lemma literal_extraction_witness :
  "0123456789AB" ∈ literals node_f
  ∧ (∃ d', process_node node_f (boot ∅) = Ok tt (set_db (PyDict d') (boot ∅))
       ∧ dom d' = {[xxh64_digest "0123456789AB"]})
  ∧ len "0123456789" ≤ 10
  ∧ literals (mkCursor FUNCTION_DECL "f" [mkToken LITERAL (quoted "0123456789")])
    = []
  ∧ len "0123456789A" = 11
  ∧ literals (mkCursor FUNCTION_DECL "f" [mkToken LITERAL (quoted "0123456789A")])
    = ["0123456789A"].
Proof.
  destruct (literal_extraction node_f) as (H1 & H2 & H3 & H4).
  split; [|split; [|split; [|split; [|split]]]].
  - apply H1. exists (mkToken LITERAL (quoted "0123456789AB")), dquote.
    split; [right; left|]. split; [reflexivity|]. split; [reflexivity|].
    vm_compute. lia.
  - destruct (H2 ∅ (boot ∅) eq_refl) as (d' & Hrun & Hdom).
    exists d'. split; [exact Hrun|]. rewrite Hdom. set_solver.
  - vm_compute. lia.
  - apply (H3 FUNCTION_DECL "f" [] [] "0123456789"). vm_compute. lia.
  - reflexivity.
  - apply (H4 FUNCTION_DECL "f" [] [] "0123456789A"). reflexivity.
Defined.

Lemma merge_idempotent_witness :
  db (boot ∅) = PyDict ∅
  ∧ ∃ d', merge (xxh64_digest "0123456789AB") "f" (boot ∅)
          = Ok tt (set_db (PyDict d') (boot ∅))
      ∧ d' !! xxh64_digest "0123456789AB" = Some {["f"]}
      ∧ merge (xxh64_digest "0123456789AB") "f" (set_db (PyDict d') (boot ∅))
        = Ok tt (set_db (PyDict d') (boot ∅)).
Proof.
  split; [reflexivity|].
  destruct (merge_idempotent (xxh64_digest "0123456789AB") "f" ∅ (boot ∅) eq_refl)
    as (d' & Hrun & Hnew & _ & _ & Hidem & _).
  exists d'. split; [exact Hrun|]. split; [|exact Hidem].
  apply Hnew. reflexivity.
Defined.

Lemma indexing_idempotent_witness :
  db (boot ∅) = PyDict ∅ ∧ fdb (boot ∅) = PySet ∅
  ∧ ∃ g1 g2,
      process_file (parse_a false) calm src_a 1 1 (boot ∅) = Ok tt g1
      ∧ process_file (parse_a false) calm src_a 1 1 g1 = Ok tt g2
      ∧ fdb g1 = PySet {[file_digest src_a]}
      ∧ db g2 = db g1 ∧ fdb g2 = fdb g1 ∧ disk g2 = disk g1.
Proof.
  split; [reflexivity|]. split; [reflexivity|].
  destruct (indexing_idempotent (parse_a false) calm src_a 1 1 1 ∅ ∅ (boot ∅)
              eq_refl eq_refl)
    as (g1 & g2 & Hrun1 & Hrun2 & _ & Hnew & Hd & Hf & Hk & _).
  exists g1, g2. split; [exact Hrun1|]. split; [exact Hrun2|].
  split; [|by repeat split].
  destruct Hnew as (d1 & _ & _ & ->); [|set_solver]. f_equal. set_solver.
Defined.

Lemma input_error_persisted_witness :
  cmd (parse_missing false) = CmdParse false "missing"
  ∧ (w_stat calm "missing" = NoSuchPath ∨ get_cpp_files calm "missing" = [])
  ∧ strdb (parse_missing false) ≠ filesdb (parse_missing false)
  ∧ value (load_db "str2func.db" (final (run (parse_missing false) calm indexed)))
    = value (load_db "str2func.db" (boot indexed))
  ∧ value (load_fdb "fh.db" (final (run (parse_missing false) calm indexed)))
    = value (load_fdb "fh.db" (boot indexed)).
Proof.
  split; [reflexivity|]. split; [left; reflexivity|]. split; [discriminate|].
  apply (input_error_persisted (parse_missing false) calm false "missing" indexed).
  - reflexivity.
  - left. reflexivity.
  - discriminate.
Defined.

(** C3, as stated, fails: after [a.c] has been indexed, a run of
    [parse --restart] on a path that does not exist leaves an index on
    disk that no longer loads as it did before the run. *)
Lemma restart_input_error_wipes :
  w_stat calm "missing" = NoSuchPath
  ∧ value (load_db "str2func.db" (boot indexed))
    = Some (PyDict {[xxh64_digest "0123456789AB" := {["f"]}]})
  ∧ value (load_db "str2func.db" (final (run (parse_missing true) calm indexed)))
    = Some (PyDict ∅)
  ∧ value (load_db "str2func.db" (final (run (parse_missing true) calm indexed)))
    ≠ value (load_db "str2func.db" (boot indexed))
  ∧ value (load_fdb "fh.db" (final (run (parse_missing true) calm indexed)))
    ≠ value (load_fdb "fh.db" (boot indexed)).
Proof.
  split; [reflexivity|]. split; [vm_compute; reflexivity|].
  split; [vm_compute; reflexivity|]. split; vm_compute; discriminate.
Qed.

Lemma restart_fresh_index_witness :
  cmd (parse_a true) = CmdParse true "a.c"
  ∧ strdb (parse_a true) ≠ filesdb (parse_a true)
  ∧ ∃ D F,
      (∀ files, ∃ g',
          run (parse_a true) calm files = Ok tt g'
          ∧ load_db "str2func.db" g' = Ok (PyDict D) g'
          ∧ load_fdb "fh.db" g' = Ok (PySet F) g')
      ∧ F = {[file_digest src_a]}
      ∧ entry D (xxh64_digest "0123456789AB") "f".
Proof.
  split; [reflexivity|]. split; [discriminate|].
  destruct (restart_fresh_index (parse_a true) calm "a.c" eq_refl)
    as (D & F & Hrun & HF & HD & _); [discriminate|].
  exists D, F. split; [|split].
  - intros files. destruct (Hrun files) as (g' & H1 & _ & _ & H2 & H3).
    exists g'. by repeat split.
  - rewrite HF. vm_compute. reflexivity.
  - apply HD. exists src_a. split.
    + exists [], []. split; [reflexivity|]. split; [set_solver|].
      intros f' Hf'. by apply elem_of_nil in Hf'.
    + exists node_f. split; [right; left|]. split; [reflexivity|].
      split; [reflexivity|]. exists "0123456789AB". split; [left|reflexivity].
Defined.


Lemma end_to_end_find_witness :
  cmd (parse_a false) = CmdParse false "a.c"
  ∧ strdb (parse_a false) ≠ filesdb (parse_a false)
  ∧ (∅ : gmap string bytes) !! strdb (parse_a false) = None
  ∧ (∅ : gmap string bytes) !! filesdb (parse_a false) = None
  ∧ w_stat calm "a.c" = IsFile src_a
  ∧ sf_suffix src_a = ".c"
  ∧ w_sigint calm 0 = false
  ∧ ∃ g1 g2,
      run (parse_a false) calm ∅ = Ok tt g1
      ∧ db g1 = PyDict {[xxh64_digest "0123456789AB" := {["f"]}]}
      ∧ run (mkArgs "str2func.db" "fh.db" 1800 (CmdFind "0123456789AB"))
            calm (disk g1) = Ok tt g2
      ∧ stdout g2 = [MsgFoundIn {["f"]}].
Proof.
  split; [reflexivity|]. split; [discriminate|]. split; [reflexivity|].
  split; [reflexivity|]. split; [reflexivity|]. split; [reflexivity|].
  split; [reflexivity|].
  destruct (end_to_end_find (parse_a false) calm calm false "a.c" "f" src_a
              [mkCursor (OTHER_CURSOR 350) "a.c" []] []
              [mkToken IDENTIFIER "puts"] [] 1800 ∅)
    as (g1 & g2 & H1 & H2 & H3 & H4 & _).
  - reflexivity.
  - discriminate.
  - right. split; reflexivity.
  - reflexivity.
  - left. reflexivity.
  - reflexivity.
  - repeat constructor. discriminate.
  - constructor.
  - repeat constructor.
  - constructor.
  - reflexivity.
  - exists g1, g2. by repeat split.
Defined.

Lemma save_in_place_witness :
  length (pickle_dumps (PyDict ∅)) ≤ 100
  ∧ save_db_stopped (PyDict ∅) "str2func.db" (AfterOpen 100) indexed
    = disk (final (save_db (PyDict ∅) "str2func.db" (boot indexed)))
  ∧ load_db "str2func.db"
      (boot (save_db_stopped (PyDict ∅) "str2func.db" (AfterOpen 100) indexed))
    = Ok (PyDict ∅)
         (boot (save_db_stopped (PyDict ∅) "str2func.db" (AfterOpen 100) indexed))
  ∧ save_db_stopped (PyDict ∅) "str2func.db" (AfterOpen 0) indexed
      !! "str2func.db" = Some [].
Proof.
  destruct (save_in_place (PyDict ∅) "str2func.db" (boot indexed) 100)
    as (_ & _ & _ & Hfull & _).
  destruct (save_in_place (PyDict ∅) "str2func.db" (boot indexed) 0)
    as (_ & Hcut & _).
  assert (length (pickle_dumps (PyDict ∅)) ≤ 100) as Hlen
    by (vm_compute; lia).
  split; [exact Hlen|]. destruct (Hfull Hlen) as [Heq Hload].
  split; [exact Heq|]. split; [exact Hload|]. exact Hcut.
Defined.

(** C8, as stated, fails: the index file holds the table of [indexed];
    a save of the empty table over it stops right after the file is
    opened; the file is then empty, and loading it raises: it gives
    neither the table the file held nor the table being saved. *)
Lemma save_not_atomic :
  value (load_db "str2func.db" (boot indexed))
  = Some (PyDict {[xxh64_digest "0123456789AB" := {["f"]}]})
  ∧ save_db_stopped (PyDict ∅) "str2func.db" (AfterOpen 0) indexed
      !! "str2func.db" = Some []
  ∧ value (load_db "str2func.db"
             (boot (save_db_stopped (PyDict ∅) "str2func.db" (AfterOpen 0) indexed)))
    = None
  ∧ ¬ (∀ stop,
         let after := value (load_db "str2func.db"
                         (boot (save_db_stopped (PyDict ∅) "str2func.db" stop indexed))) in
         after = value (load_db "str2func.db" (boot indexed))
         ∨ after = Some (PyDict ∅)).
Proof.
  split; [vm_compute; reflexivity|]. split; [reflexivity|].
  split; [vm_compute; reflexivity|].
  intros Hall. specialize (Hall (AfterOpen 0)). cbn zeta in Hall.
  destruct Hall as [Hold|Hnew]; vm_compute in *; discriminate.
Qed.

Lemma persistence_round_trip_witness :
  strdb (parse_a false) ≠ filesdb (parse_a false)
  ∧ (∅ : gmap string bytes) !! "fh.db" = None
  ∧ (∃ g', save_db (PySet {[xxh64_digest "x"]}) "fh.db" (boot ∅) = Ok tt g'
       ∧ load_fdb "fh.db" g' = Ok (PySet {[xxh64_digest "x"]}) g')
  ∧ (∃ g', save_all (parse_a false) (boot ∅) = Ok tt g'
       ∧ load_db "str2func.db" g' = Ok (PyDict ∅) g'
       ∧ load_fdb "fh.db" g' = Ok (PySet ∅) g')
  ∧ load_db "fh.db" (boot ∅) = Ok (PyDict ∅) (boot ∅)
  ∧ load_fdb "fh.db" (boot ∅) = Ok (PySet ∅) (boot ∅).
Proof.
  destruct (persistence_round_trip (parse_a false) (boot ∅))
    as (Hsave & Hall & Hmissing).
  split; [discriminate|]. split; [reflexivity|].
  split; [|split].
  - destruct (Hsave (PySet {[xxh64_digest "x"]}) "fh.db") as (g' & H1 & _ & H2).
    by exists g'.
  - destruct Hall as (g' & H1 & _ & _ & H2 & H3); [discriminate|].
    by exists g'.
  - apply Hmissing. reflexivity.
Defined.

Lemma index_sets_nonempty_witness :
  reachable_disk indexed
  ∧ db (final (run (parse_a false) calm indexed))
    = PyDict {[xxh64_digest "0123456789AB" := {["f"]}]}
  ∧ nonempty_sets {[xxh64_digest "0123456789AB" := {["f"]}]}.
Proof.
  assert (reachable_disk indexed) as Hreach.
  { apply (reachable_run (parse_a false) calm ∅), reachable_fresh. }
  split; [exact Hreach|].
  destruct (index_sets_nonempty indexed (parse_a false) calm Hreach)
    as (Hmem & _ & _).
  assert (db (final (run (parse_a false) calm indexed))
          = PyDict {[xxh64_digest "0123456789AB" := {["f"]}]}) as Hdb
    by (vm_compute; reflexivity).
  split; [exact Hdb|]. apply Hmem. exact Hdb.
Defined.
